(** * A course-selection assistant: model of [agent.py] and its properties

    The development embeds the pure core of the Python program
    ([ConversationManager] and the catalog / selection operations of
    [CourseSystem]) and proves the properties stated for it.

    Python values are modelled as follows.
    - [str] is the list of the Unicode code points of the string.
    - [dict] (insertion ordered, unique keys) is an association list.
    - [set] is a [gset]; its iteration order, which Python leaves
      unspecified, is the order of [elements].
    - [int] is [Z].
    - A method that mutates [self] takes the state and returns the new
      state together with its result. *)

From Stdlib Require Import ZArith NArith Ascii String.
From stdpp Require Import base decidable option list sorting sets gmap.

Open Scope N_scope.
Open Scope list_scope.

(** ** Strings *)

(** A Python [str]: its code points. *)
Abbreviation str := (list N).

(** Literals are written as UTF-8 text and decoded into code points. *)
Fixpoint utf8_decode (bs : list N) : str :=
  match bs with
  | [] => []
  | b0 :: r0 =>
    if b0 <? 128 then b0 :: utf8_decode r0 else
    match r0 with
    | [] => []
    | b1 :: r1 =>
      if b0 <? 224 then ((b0 - 192) * 64 + (b1 - 128)) :: utf8_decode r1 else
      match r1 with
      | [] => []
      | b2 :: r2 =>
        if b0 <? 240
        then ((b0 - 224) * 4096 + (b1 - 128) * 64 + (b2 - 128)) :: utf8_decode r2
        else
        match r2 with
        | [] => []
        | b3 :: r3 =>
          ((b0 - 240) * 262144 + (b1 - 128) * 4096 + (b2 - 128) * 64 + (b3 - 128))
            :: utf8_decode r3
        end
      end
    end
  end.

Fixpoint bytes_of (s : string) : list N :=
  match s with
  | EmptyString => []
  | String a s' => N_of_ascii a :: bytes_of s'
  end.

Definition u (s : string) : str := utf8_decode (bytes_of s).

(** The parts of Python's Unicode database the program reaches through
    [str.lower] and [str.split]: they are not part of the program, so the
    model takes them as an interface. *)
Class Unicode := {
  lower : str → str;
  isspace : N → bool
}.

(** An instance for evaluation: the ASCII case mapping (every other code
    point is left alone, which is what [str.lower] does on the CJK names of
    the catalog) and the code points on which [str.isspace] holds. *)
Definition ascii_lower_char (c : N) : N :=
  if (65 <=? c) && (c <=? 90) then c + 32 else c.

Definition py_isspace (c : N) : bool :=
  ((9 <=? c) && (c <=? 13)) || ((28 <=? c) && (c <=? 32))
  || (c =? 133) || (c =? 160) || (c =? 5760)
  || ((8192 <=? c) && (c <=? 8202))
  || (c =? 8232) || (c =? 8233) || (c =? 8239) || (c =? 8287) || (c =? 12288).

Definition plain_unicode : Unicode :=
  {| lower := map ascii_lower_char; isspace := py_isspace |}.

(** [needle in hay] on two strings. *)
Fixpoint startswith (hay needle : str) : bool :=
  match needle, hay with
  | [], _ => true
  | _ :: _, [] => false
  | a :: needle', b :: hay' => (a =? b) && startswith hay' needle'
  end.

Fixpoint contains (needle hay : str) : bool :=
  startswith hay needle ||
  match hay with
  | [] => false
  | _ :: hay' => contains needle hay'
  end.

(** [", ".join(parts)] *)
Fixpoint join (sep : str) (parts : list str) : str :=
  match parts with
  | [] => []
  | [p] => p
  | p :: rest => p ++ sep ++ join sep rest
  end.

(** [str(n)] for a natural number. *)
Fixpoint digits_of_uint (d : Decimal.uint) : str :=
  match d with
  | Decimal.Nil => []
  | Decimal.D0 d' => 48 :: digits_of_uint d'
  | Decimal.D1 d' => 49 :: digits_of_uint d'
  | Decimal.D2 d' => 50 :: digits_of_uint d'
  | Decimal.D3 d' => 51 :: digits_of_uint d'
  | Decimal.D4 d' => 52 :: digits_of_uint d'
  | Decimal.D5 d' => 53 :: digits_of_uint d'
  | Decimal.D6 d' => 54 :: digits_of_uint d'
  | Decimal.D7 d' => 55 :: digits_of_uint d'
  | Decimal.D8 d' => 56 :: digits_of_uint d'
  | Decimal.D9 d' => 57 :: digits_of_uint d'
  end.

Definition str_of_nat (n : nat) : str := digits_of_uint (Nat.to_uint n).

Section WithUnicode.
Context `{!Unicode}.

(** [s.split()]: the maximal runs of non-whitespace code points. [cur] is
    the run being read. *)
Fixpoint split_from (cur : str) (s : str) : list str :=
  match s with
  | [] => match cur with [] => [] | _ => [cur] end
  | c :: s' =>
    if isspace c
    then match cur with
         | [] => split_from [] s'
         | _ => cur :: split_from [] s'
         end
    else split_from (cur ++ [c]) s'
  end.

Definition split (s : str) : list str := split_from [] s.

End WithUnicode.


(** ** Conversation history *)

Record Message := { role : str; content : str }.

Record ConversationManager := {
  history : list Message;
  max_history : Z
}.

(** [ConversationManager(max_history)]; the default is [3]. *)
Definition new_ConversationManager (max_history : Z) : ConversationManager :=
  {| history := []; max_history := max_history |}.

(** [l.pop(0)] raises [IndexError] on the empty list: [None]. The popped
    element is not used by the program. *)
Definition pop0 {A} (l : list A) : option (list A) :=
  match l with
  | [] => None
  | _ :: l' => Some l'
  end.

Definition add_message (role content : str) (self : ConversationManager)
  : option ConversationManager :=
  let history1 := history self ++ [{| role := role; content := content |}] in
  if (Z.of_nat (length history1) >? max_history self)%Z
  then history2 ← pop0 history1;
       Some {| history := history2; max_history := max_history self |}
  else Some {| history := history1; max_history := max_history self |}.

(** A run of [add_message] calls, oldest first. *)
Fixpoint add_messages (msgs : list Message) (self : ConversationManager)
  : option ConversationManager :=
  match msgs with
  | [] => Some self
  | m :: msgs' => self' ← add_message (role m) (content m) self; add_messages msgs' self'
  end.

(** ** The course system *)

Record CourseInfo := { type : str; tags : list str }.

(** The rows [query_courses] returns. *)
Record CourseRow := { name : str; row_type : str; row_tags : list str }.

Record CourseSystem := {
  courses : list (str * CourseInfo);
  selected_courses : gset str;
  conversation_manager : ConversationManager;
  last_mentioned_course : option str
}.

Record OperationResult := {
  success : bool;
  message : str;
  similar_courses : list str;
  needs_confirmation : bool;
  course_to_confirm : option str
}.

(** [self.courses.keys()], in insertion order. *)
Definition keys (self : CourseSystem) : list str := (courses self).*1.

(** [self.courses[k]]; [None] stands for [KeyError]. *)
Fixpoint getitem (cs : list (str * CourseInfo)) (k : str) : option CourseInfo :=
  match cs with
  | [] => None
  | (k', v) :: cs' => if bool_decide (k = k') then Some v else getitem cs' k
  end.

Definition with_selected (self : CourseSystem) (sel : gset str) : CourseSystem :=
  {| courses := courses self;
     selected_courses := sel;
     conversation_manager := conversation_manager self;
     last_mentioned_course := last_mentioned_course self |}.

(** [enumerate(l)], counting from [i]. *)
Fixpoint enumerate_from {A} (i : nat) (l : list A) : list (nat * A) :=
  match l with
  | [] => []
  | x :: l' => (i, x) :: enumerate_from (S i) l'
  end.

(** The line feed. *)
Definition nl : str := [10].

(** ["\n".join(f"{i + 1}. {c}" for i, c in enumerate(similar_courses))] *)
Definition numbered_menu (similar : list str) : str :=
  join nl (map (λ ic, str_of_nat (ic.1 + 1) ++ u ". " ++ ic.2) (enumerate_from 0 similar)).

Section CourseSystem.
Context `{!Unicode}.

(** The body of the fuzzy loop over the candidate names [pool]. *)
Definition fuzzy_step (search_term : str) (similar : list str) (course : str) : list str :=
  let course_lower := lower course in
  if contains search_term course_lower || contains course_lower search_term
  then similar ++ [course]
  else if existsb (λ keyword, contains keyword course_lower) (split search_term)
  then similar ++ [course]
  else similar.

(** [find_similar_courses] once the candidates are chosen: [pool] is the
    iteration order of [courses], the keys of the catalog or the selection. *)
Definition find_similar (course_name : str) (pool : list str) : list str :=
  if bool_decide (course_name ∈ pool) then [course_name]
  else
    let search_term := lower course_name in
    foldl (fuzzy_step search_term) [] pool.

(** [self.find_similar_courses(course_name, selected)] *)
Definition find_similar_courses (self : CourseSystem) (course_name : str) (selected : bool)
  : list str :=
  let pool := if selected then elements (selected_courses self) else keys self in
  find_similar course_name pool.

(** [self.select_course(course_name, force)]: the new state and the result
    dictionary. *)
Definition select_course (course_name : str) (force : bool) (self : CourseSystem)
  : CourseSystem * OperationResult :=
  if force && bool_decide (course_name ∈ keys self) then
    if bool_decide (course_name ∈ selected_courses self) then
      (self, {| success := false;
                message := u "您已经选择了 " ++ course_name;
                similar_courses := [];
                needs_confirmation := false;
                course_to_confirm := None |})
    else
      (with_selected self ({[course_name]} ∪ selected_courses self),
       {| success := true;
          message := u "成功选择 " ++ course_name;
          similar_courses := [];
          needs_confirmation := false;
          course_to_confirm := None |})
  else
    match find_similar_courses self course_name false with
    | [] =>
      (self, {| success := false;
                message := u "未找到与 '" ++ course_name ++ u "' 相关的课程";
                similar_courses := [];
                needs_confirmation := false;
                course_to_confirm := None |})
    | [found_course] =>
      (self, {| success := false;
                message := u "您是否想选择 '" ++ found_course ++ u "' ？";
                similar_courses := [];
                needs_confirmation := true;
                course_to_confirm := Some found_course |})
    | similar =>
      (self, {| success := false;
                message := u "找到多个相关课程：" ++ nl ++ numbered_menu similar;
                similar_courses := similar;
                needs_confirmation := false;
                course_to_confirm := None |})
    end.

(** [set.remove] raises [KeyError] for a missing element; the only call is
    guarded by the membership test, so it is the set difference. *)
Definition delete_course (course_name : str) (force : bool) (self : CourseSystem)
  : CourseSystem * OperationResult :=
  if force && bool_decide (course_name ∈ selected_courses self) then
    (with_selected self (selected_courses self ∖ {[course_name]}),
     {| success := true;
        message := u "成功退选 " ++ course_name;
        similar_courses := [];
        needs_confirmation := false;
        course_to_confirm := None |})
  else if bool_decide (course_name ∈ selected_courses self) then
    (self, {| success := false;
              message := u "确认要退选 '" ++ course_name ++ u "' 吗？";
              similar_courses := [];
              needs_confirmation := true;
              course_to_confirm := Some course_name |})
  else
    match find_similar_courses self course_name true with
    | [] =>
      (self, {| success := false;
                message := u "未找到与 '" ++ course_name ++ u "' 相关的已选课程";
                similar_courses := [];
                needs_confirmation := false;
                course_to_confirm := None |})
    | [found_course] =>
      (self, {| success := false;
                message := u "您是否想退选 '" ++ found_course ++ u "' ？";
                similar_courses := [];
                needs_confirmation := true;
                course_to_confirm := Some found_course |})
    | similar =>
      (self, {| success := false;
                message := u "找到多个相关的已选课程：" ++ nl ++ numbered_menu similar;
                similar_courses := similar;
                needs_confirmation := false;
                course_to_confirm := None |})
    end.

End CourseSystem.

(** ** Queries *)

(** [x in l] for a list of strings. *)
Definition in_list (x : str) (l : list str) : bool := bool_decide (x ∈ l).

(** [not l] and [if l] for an optional list argument ([None] or a list). *)
Definition truthy {A} (l : option (list A)) : bool :=
  match l with
  | None | Some [] => false
  | Some (_ :: _) => true
  end.

Definition arg {A} (l : option (list A)) : list A := default [] l.

(** [list.sort(key=key, reverse=True)]: Python's sort is stable, also with
    [reverse=True]; it is modelled by the stable insertion sort. *)
Section Sort.
Context {A : Type} (key : A → nat).

Fixpoint insert_desc (x : A) (l : list A) : list A :=
  match l with
  | [] => [x]
  | y :: l' => if (key x <? key y)%nat then y :: insert_desc x l' else x :: y :: l'
  end.

Fixpoint sort_desc (l : list A) : list A :=
  match l with
  | [] => []
  | x :: l' => insert_desc x (sort_desc l')
  end.

End Sort.

(** [len(set(tags) & set(interests))] *)
Definition overlap (tags interests : list str) : nat :=
  size ((list_to_set tags : gset str) ∩ list_to_set interests).

(** The sort key of a row: it reads the tags back from the catalog. A
    missing name would be a [KeyError]; rows are built from the catalog, so
    that case (given [0] here) is not reached, see [sort_key_row]. *)
Definition sort_key (self : CourseSystem) (interests : list str) (x : CourseRow) : nat :=
  match getitem (courses self) (name x) with
  | Some info => overlap (tags info) interests
  | None => 0%nat
  end.

Definition query_step (filters : option (list str)) (results : list CourseRow)
    (item : str * CourseInfo) : list CourseRow :=
  let '(course_name, info) := item in
  if negb (truthy filters) || in_list (type info) (arg filters)
  then results ++ [{| name := course_name; row_type := type info; row_tags := tags info |}]
  else results.

Definition query_courses (filters interests : option (list str)) (self : CourseSystem)
  : list CourseRow :=
  let results := foldl (query_step filters) [] (courses self) in
  if truthy interests
  then sort_desc (sort_key self (arg interests)) results
  else results.

(** ** The catalog of [CourseSystem.__init__] *)

Definition course (n t : string) (tg : list string) : str * CourseInfo :=
  (u n, {| type := u t; tags := map u tg |}).

Definition init_courses : list (str * CourseInfo) := [
  course "高等数学" "必修" ["理科"; "基础课"];
  course "线性代数" "必修" ["理科"; "基础课"];
  course "数据结构与算法" "必修" ["编程"; "专业核心"];
  course "计算机网络" "必修" ["专业核心"; "网络"];
  course "操作系统" "必修" ["专业核心"; "系统"];
  course "概率论与数理统计" "必修" ["理科"; "基础课"];
  course "信号与系统" "必修" ["专业基础"; "通信"];
  course "数字信号处理" "必修" ["专业核心"; "通信"];
  course "通信原理" "必修" ["专业核心"; "通信"];
  course "电磁场与电磁波" "必修" ["专业基础"; "通信"];
  course "微波技术与天线" "必修" ["专业核心"; "通信"];
  course "人工智能导论" "选修" ["专业方向"; "AI"];
  course "云计算技术" "选修" ["专业方向"; "云计算"];
  course "大数据处理" "选修" ["专业方向"; "数据"];
  course "现代交换技术" "必修" ["专业核心"; "通信"];
  course "光纤通信" "必修" ["专业核心"; "通信"];
  course "移动通信" "必修" ["专业核心"; "通信"];
  course "卫星通信" "选修" ["专业方向"; "通信"];
  course "无线网络" "选修" ["专业方向"; "通信"];
  course "通信网安全" "选修" ["专业方向"; "安全"];
  course "移动应用开发" "选修" ["编程"; "移动开发"];
  course "信息安全" "选修" ["专业方向"; "安全"];
  course "信息安全基础" "必修" ["专业核心"; "安全"];
  course "密码学" "必修" ["专业核心"; "安全"];
  course "网络安全技术" "必修" ["专业核心"; "安全"];
  course "系统安全" "必修" ["专业核心"; "安全"];
  course "应用安全" "必修" ["专业核心"; "安全"];
  course "网络攻防技术" "必修" ["专业核心"; "安全"];
  course "网络安全法律法规" "选修" ["专业方向"; "法律"];
  course "云计算安全" "选修" ["专业方向"; "云计算"; "安全"];
  course "体育" "选修" ["运动"]
]%string.

(** A fresh system over a catalog: nothing selected, an empty history of
    capacity [3], no course mentioned. *)
Definition new_system (catalog : list (str * CourseInfo)) : CourseSystem :=
  {| courses := catalog;
     selected_courses := ∅;
     conversation_manager := new_ConversationManager 3;
     last_mentioned_course := None |}.

Definition new_CourseSystem : CourseSystem := new_system init_courses.

(** The calls that change the selection, for runs of the system. *)
Inductive Call :=
  | Select (course_name : str) (force : bool)
  | Delete (course_name : str) (force : bool).

Section Runs.
Context `{!Unicode}.

Definition call (c : Call) (self : CourseSystem) : CourseSystem * OperationResult :=
  match c with
  | Select n f => select_course n f self
  | Delete n f => delete_course n f self
  end.

Fixpoint run (cs : list Call) (self : CourseSystem) : CourseSystem :=
  match cs with
  | [] => self
  | c :: cs' => run cs' (call c self).1
  end.

End Runs.


(** ** The other methods *)

(** The exceptions the methods below raise, and the outcome of a call that
    can raise. *)
Inductive Exception :=
  | ValidationError (msg : str)
  | KeyError (key : str).

Inductive Outcome (A : Type) :=
  | Return (a : A)
  | Raise (e : Exception).
Arguments Return {A} a.
Arguments Raise {A} e.

(** [self.get_recent_history()]: one line per turn, the student's turns under
    one label and every other role under the other. *)
Definition transcript_line (msg : Message) : str :=
  (if bool_decide (role msg = u "user") then u "学生" else u "助手")
  ++ u ": " ++ content msg.

Definition get_recent_history (self : ConversationManager) : str :=
  join nl (map transcript_line (history self)).

(** [self.validate_course_name(course_name)], for a string argument: the
    empty name raises, any other is looked up in the catalog. *)
Definition validate_course_name (course_name : str) (self : CourseSystem)
  : Outcome bool :=
  match course_name with
  | [] => Raise (ValidationError (u "课程名称无效"))
  | _ :: _ => Return (bool_decide (course_name ∈ keys self))
  end.

(** [self.show_selected_courses()] returns a sentence when nothing is
    selected and the rows of the selected courses otherwise. *)
Inductive Shown :=
  | NothingSelected (msg : str)
  | Listing (rows : list CourseRow).

(** The comprehension over the selection: each name is looked up in the
    catalog, and the first name that is missing raises. *)
Fixpoint show_rows (cs : list (str * CourseInfo)) (names : list str)
  : Outcome (list CourseRow) :=
  match names with
  | [] => Return []
  | course :: names' =>
    match getitem cs course with
    | None => Raise (KeyError course)
    | Some info =>
      match show_rows cs names' with
      | Return rows =>
        Return ({| name := course; row_type := type info; row_tags := tags info |} :: rows)
      | Raise e => Raise e
      end
    end
  end.

Definition show_selected_courses (self : CourseSystem) : Outcome Shown :=
  if bool_decide (size (selected_courses self) = 0%nat)
  then Return (NothingSelected (u "您还没有选择任何课程"))
  else
    match show_rows (courses self) (elements (selected_courses self)) with
    | Return rows => Return (Listing rows)
    | Raise e => Raise e
    end.

(** Whether a call passes [force=True]. *)
Definition forced (c : Call) : bool :=
  match c with
  | Select _ f | Delete _ f => f
  end.

(** * Specifications *)

(** ** Substrings, tokens and matches *)

(** [s] occurs in [t] as a contiguous run. *)
Definition substring (s t : str) : Prop := ∃ pre suf, t = pre ++ s ++ suf.

Section MatchSpec.
Context `{!Unicode}.

(** No code point of [s] is whitespace. *)
Definition nonspace (s : str) : Prop := Forall (λ c, isspace c = false) s.

(** [tok] is a whitespace-delimited token of [s]: a non-empty run without
    whitespace that is bounded on each side by whitespace or by an end of
    [s]. *)
Definition token (tok s : str) : Prop :=
  tok ≠ [] ∧ nonspace tok ∧
  ∃ pre suf, s = pre ++ tok ++ suf ∧
    (∀ c, last pre = Some c → isspace c = true) ∧
    (∀ c, head suf = Some c → isspace c = true).

(** The matching condition in words: the lowercase query occurs in the
    lowercase name, or the other way round, or some whitespace-delimited
    token of the lowercase query occurs in the lowercase name. *)
Definition fuzzy_match (query c : str) : Prop :=
  substring (lower query) (lower c) ∨
  substring (lower c) (lower query) ∨
  ∃ tok, token tok (lower query) ∧ substring tok (lower c).

(** The test of the loop body, as one boolean. *)
Definition fuzzy_matchb (query c : str) : bool :=
  contains (lower query) (lower c) || contains (lower c) (lower query)
  || existsb (λ keyword, contains keyword (lower c)) (split (lower query)).

End MatchSpec.

(** ** Results of the operations *)

(** The lines of a menu number the matches from one. *)
Definition menu_lines (similar : list str) (lines : list str) : Prop :=
  length lines = length similar ∧
  ∀ (i : nat) c, similar !! i = Some c →
    lines !! i = Some (str_of_nat (i + 1) ++ u ". " ++ c).

(** The three outcomes of a disambiguation over [matches], with the wording
    of the calling operation. *)
Definition disambiguated (not_found : str) (ask : str → str) (header : str)
    (matches : list str) (r : OperationResult) : Prop :=
  (length matches = 0%nat →
     r = {| success := false; message := not_found; similar_courses := [];
            needs_confirmation := false; course_to_confirm := None |}) ∧
  (∀ m, matches = [m] →
     r = {| success := false; message := ask m; similar_courses := [];
            needs_confirmation := true; course_to_confirm := Some m |}) ∧
  ((1 < length matches)%nat →
     success r = false ∧ needs_confirmation r = false ∧
     course_to_confirm r = None ∧ similar_courses r = matches ∧
     ∃ lines, message r = header ++ nl ++ join nl lines ∧ menu_lines matches lines).

(** The three shapes, read off a result alone. *)
Definition is_not_found (r : OperationResult) : Prop :=
  success r = false ∧ needs_confirmation r = false ∧
  similar_courses r = [] ∧ course_to_confirm r = None.

Definition is_confirm_one (r : OperationResult) : Prop :=
  needs_confirmation r = true ∧ is_Some (course_to_confirm r).

Definition is_choose_many (r : OperationResult) : Prop :=
  needs_confirmation r = false ∧ (1 < length (similar_courses r))%nat.

Definition exactly_one (P Q R : Prop) : Prop :=
  (P ∧ ¬ Q ∧ ¬ R) ∨ (¬ P ∧ Q ∧ ¬ R) ∨ (¬ P ∧ ¬ Q ∧ R).

Definition one_outcome (r : OperationResult) : Prop :=
  exactly_one (is_not_found r) (is_confirm_one r) (is_choose_many r).

Section Wording.
Context `{!Unicode}.

(** The disambiguation of [select_course], over the catalog names, and of
    [delete_course], over the selection, each with its messages. *)
Definition select_wording_ok (course_name : str) (self : CourseSystem)
    (r : OperationResult) : Prop :=
  disambiguated
    (u "未找到与 '" ++ course_name ++ u "' 相关的课程")
    (λ m, u "您是否想选择 '" ++ m ++ u "' ？")
    (u "找到多个相关课程：")
    (find_similar_courses self course_name false) r.

Definition delete_wording_ok (course_name : str) (self : CourseSystem)
    (r : OperationResult) : Prop :=
  disambiguated
    (u "未找到与 '" ++ course_name ++ u "' 相关的已选课程")
    (λ m, u "您是否想退选 '" ++ m ++ u "' ？")
    (u "找到多个相关的已选课程：")
    (find_similar_courses self course_name true) r.

End Wording.

(** The results of the forced branches. *)
Definition already_selected (course_name : str) : OperationResult :=
  {| success := false; message := u "您已经选择了 " ++ course_name;
     similar_courses := []; needs_confirmation := false; course_to_confirm := None |}.

Definition selected_ok (course_name : str) : OperationResult :=
  {| success := true; message := u "成功选择 " ++ course_name;
     similar_courses := []; needs_confirmation := false; course_to_confirm := None |}.

Definition deleted_ok (course_name : str) : OperationResult :=
  {| success := true; message := u "成功退选 " ++ course_name;
     similar_courses := []; needs_confirmation := false; course_to_confirm := None |}.

(** The outcome fields of a result exclude one another. *)
Definition exclusive_fields (r : OperationResult) : Prop :=
  (success r = true →
     needs_confirmation r = false ∧ similar_courses r = [] ∧
     course_to_confirm r = None) ∧
  (needs_confirmation r = true →
     success r = false ∧ similar_courses r = [] ∧ is_Some (course_to_confirm r)) ∧
  (similar_courses r ≠ [] →
     success r = false ∧ needs_confirmation r = false ∧
     course_to_confirm r = None).

(** The selection holds names of the catalog only. *)
Definition selection_in_catalog (self : CourseSystem) : Prop :=
  ∀ c, c ∈ selected_courses self → c ∈ keys self.

(** The history is no longer than its capacity. *)
Definition within_capacity (cm : ConversationManager) : Prop :=
  (Z.of_nat (length (history cm)) ≤ max_history cm)%Z.

Definition message_of (role content : str) : Message :=
  {| role := role; content := content |}.

(** ** Sorted query results *)

(** Every element has a key at least as large as the keys after it. *)
Definition descending {A} (key : A → nat) (l : list A) : Prop :=
  StronglySorted (λ x y, (key y ≤ key x)%nat) l.

(** A catalog entry passes the filter: there is no filter, or the type of
    the course is one of the filters. *)
Definition wanted (filters : option (list str)) (item : str * CourseInfo) : Prop :=
  truthy filters = false ∨ type item.2 ∈ arg filters.

#[global] Instance wanted_dec filters item : Decision (wanted filters item).
Proof. unfold wanted. apply _. Defined.

Definition row_of (item : str * CourseInfo) : CourseRow :=
  {| name := item.1; row_type := type item.2; row_tags := tags item.2 |}.

(** The rows of the courses that pass the filter, in catalog order. *)
Definition filtered_rows (filters : option (list str)) (self : CourseSystem)
  : list CourseRow :=
  row_of <$> filter (wanted filters) (courses self).

(** What a result offers: the course to confirm, or an entry of the menu. *)
Definition offers (r : OperationResult) (c : str) : Prop :=
  course_to_confirm r = Some c ∨ c ∈ similar_courses r.

(** ** Three statements as first written

    The forced operations and the select/delete symmetry were first stated
    in the forms below; [select_force_spec], [delete_force_spec] and
    [select_delete_symmetry] give the forms that hold. *)

Section AsFirstWritten.
Context `{!Unicode}.

(** A forced select of a name outside the catalog changes nothing and fails
    with the not-found message; of a selected name, fails with the
    already-selected message and changes nothing; of any other name, inserts
    it with success. *)
Definition select_force_as_written (course_name : str) (self : CourseSystem) : Prop :=
  let res := select_course course_name true self in
  (course_name ∉ keys self →
     res.1 = self ∧ success res.2 = false ∧
     message res.2 = u "未找到与 '" ++ course_name ++ u "' 相关的课程") ∧
  (course_name ∈ keys self → course_name ∈ selected_courses self →
     res.1 = self ∧ success res.2 = false ∧
     message res.2 = u "您已经选择了 " ++ course_name) ∧
  (course_name ∈ keys self → course_name ∉ selected_courses self →
     selected_courses res.1 = {[course_name]} ∪ selected_courses self ∧
     success res.2 = true).

(** A forced delete removes a selected name with success, and otherwise
    changes nothing, fails and asks for no confirmation. *)
Definition delete_force_as_written (course_name : str) (self : CourseSystem) : Prop :=
  let res := delete_course course_name true self in
  (course_name ∈ selected_courses self →
     selected_courses res.1 = selected_courses self ∖ {[course_name]} ∧
     success res.2 = true) ∧
  (course_name ∉ selected_courses self →
     res.1 = self ∧ success res.2 = false ∧ needs_confirmation res.2 = false).

(** A forced delete after a forced select gives back the selection as it
    was, whatever it was. *)
Definition symmetry_as_written (c : str) (self : CourseSystem) : Prop :=
  selected_courses (delete_course c true (select_course c true self).1).1
  = selected_courses self.

End AsFirstWritten.

(** * Properties *)

(** ** Substrings and tokens *)

Lemma startswith_spec hay needle :
  startswith hay needle = true ↔ ∃ suf, hay = needle ++ suf.
Proof.
  revert hay. induction needle as [|a needle IH]; intros [|b hay]; simpl.
  - split; [intros _; by exists [] | done].
  - split; [intros _; by eexists | done].
  - split; [done | intros [suf Hs]; discriminate].
  - rewrite andb_true_iff, N.eqb_eq, IH. split.
    + intros [-> [suf ->]]. by exists suf.
    + intros [suf Hs]. injection Hs as -> ->. eauto.
Qed.

Lemma contains_spec needle hay : contains needle hay = true ↔ substring needle hay.
Proof.
  unfold substring. induction hay as [|b hay IH]; cbn [contains].
  - rewrite orb_false_r, startswith_spec. split.
    + intros [suf Hs]. by exists [], suf.
    + intros (pre & suf & Hs). symmetry in Hs.
      apply app_eq_nil in Hs as [-> Hs]. apply app_eq_nil in Hs as [-> ->].
      by exists [].
  - rewrite orb_true_iff, startswith_spec, IH. split.
    + intros [[suf Hs] | (pre & suf & Hs)].
      * by exists [], suf.
      * exists (b :: pre), suf. by rewrite Hs.
    + intros ([|c pre] & suf & Hs).
      * left. by exists suf.
      * right. injection Hs as -> ->. by exists pre, suf.
Qed.

Lemma substring_refl s : substring s s.
Proof. exists [], []. by rewrite app_nil_r. Qed.

Section Tokens.
Context `{!Unicode}.

Lemma nonspace_elem (s : str) c : nonspace s → c ∈ s → isspace c = true → False.
Proof.
  intros Hs Hc Hsp. unfold nonspace in Hs. rewrite Forall_forall in Hs.
  specialize (Hs c Hc). congruence.
Qed.

Lemma nonspace_snoc (s : str) c : nonspace s → isspace c = false → nonspace (s ++ [c]).
Proof. intros Hs Hc. apply Forall_app. split; [done | by constructor]. Qed.

(** A closed left end inside a run without whitespace is the start. *)
Lemma closed_left_nil (pre rest cur : str) :
  nonspace cur → cur = pre ++ rest →
  (∀ c, last pre = Some c → isspace c = true) → pre = [].
Proof.
  intros Hcur -> Hl. destruct pre as [|c0 pre _] using rev_ind; [done | exfalso].
  apply (nonspace_elem _ c0 Hcur); [set_solver |].
  apply Hl. by rewrite last_snoc.
Qed.

Lemma closed_right_nil (pre suf cur : str) :
  nonspace cur → cur = pre ++ suf →
  (∀ c, head suf = Some c → isspace c = true) → suf = [].
Proof.
  intros Hcur -> Hr. destruct suf as [|c1 suf]; [done | exfalso].
  apply (nonspace_elem _ c1 Hcur); [set_solver |]. by apply Hr.
Qed.

(** Where a token can sit in [cur ++ c :: s] when [cur] has no whitespace
    and [c] is whitespace: it is [cur] itself, or it lies in [s]. *)
Lemma token_across_space (cur s pre tok suf : str) c :
  nonspace cur → isspace c = true → tok ≠ [] → nonspace tok →
  cur ++ c :: s = pre ++ tok ++ suf →
  (∀ c, last pre = Some c → isspace c = true) →
  (∀ c, head suf = Some c → isspace c = true) →
  (pre = [] ∧ tok = cur ∧ suf = c :: s) ∨
  (∃ pre', pre = cur ++ c :: pre' ∧ s = pre' ++ tok ++ suf).
Proof.
  intros Hcur Hc Hne Htok Heq Hl Hr.
  apply app_eq_app in Heq as [k [[-> Heq] | [-> Heq]]].
  - (* [pre] ends inside [cur] *)
    assert (pre = []) as -> by (eapply closed_left_nil; [exact Hcur | done | done]).
    left. simpl in *. apply app_eq_app in Heq as [k2 [[-> Heq] | [-> Heq]]].
    + destruct k2 as [|c2 k2].
      * simpl in Heq. subst suf. by rewrite app_nil_r.
      * exfalso. simpl in Heq. injection Heq as <- _.
        apply (nonspace_elem _ c Htok); [set_solver | done].
    + destruct k2 as [|c2 k2].
      * simpl in Heq. subst suf. by rewrite app_nil_r.
      * exfalso. subst suf.
        apply (nonspace_elem _ c2 Hcur); [set_solver | by apply Hr].
  - (* [pre] reaches past [cur] *)
    destruct k as [|c2 k].
    + exfalso. simpl in Heq. destruct tok as [|t tok]; [done |].
      injection Heq as <- _. apply (nonspace_elem _ c Htok); [set_solver | done].
    + right. simpl in Heq. injection Heq as <- ->. by exists k.
Qed.

Lemma split_from_spec (cur s tok : str) :
  nonspace cur → tok ∈ split_from cur s ↔ token tok (cur ++ s).
Proof.
  revert cur. induction s as [|c s IH]; intros cur Hcur.
  - rewrite app_nil_r. cbn [split_from]. split.
    + destruct cur as [|a cur]; [by intros ?%elem_of_nil |].
      intros ->%list_elem_of_singleton. split; [done |]. split; [done |].
      exists [], []. by rewrite app_nil_r.
    + intros (Hne & Htok & pre & suf & Heq & Hl & Hr).
      assert (pre = []) as -> by (eapply closed_left_nil; [exact Hcur | done | done]).
      assert (suf = []) as ->.
      { eapply (closed_right_nil tok); [exact Hcur | done | done]. }
      simpl in Heq. rewrite app_nil_r in Heq. subst cur.
      destruct tok; [done | set_solver].
  - cbn [split_from]. destruct (isspace c) eqn:Hc.
    + assert (tok ∈ split_from [] s ↔ token tok s) as IH0.
      { by rewrite (IH []) by constructor. }
      assert (token tok (cur ++ c :: s) ↔ (cur ≠ [] ∧ tok = cur) ∨ token tok s) as ->.
      { split.
        - intros (Hne & Htok & pre & suf & Heq & Hl & Hr).
          destruct (token_across_space cur s pre tok suf c) as [(-> & -> & ->) | (pre' & -> & ->)];
            try done.
          + by left.
          + right. split; [done |]. split; [done |]. exists pre', suf.
            split; [done |]. split; [| done].
            intros c0 Hc0. apply Hl. rewrite last_app, last_cons, Hc0. done.
        - intros [[Hne ->] | (Hne & Htok & pre & suf & -> & Hl & Hr)].
          + split; [done |]. split; [done |]. exists [], (c :: s).
            split; [done |]. split; [done |]. simpl. by intros ? [= <-].
          + split; [done |]. split; [done |]. exists (cur ++ c :: pre), suf.
            split; [by rewrite <- app_assoc |]. split; [| done].
            intros c0. rewrite last_app, last_cons.
            destruct (last pre) as [c1|] eqn:Hlast.
            * intros [= <-]. by apply Hl.
            * by intros [= <-]. }
      rewrite <- IH0. destruct cur as [|a cur].
      * split; [by right | by intros [[? _] | ?]].
      * rewrite elem_of_cons. split.
        -- intros [-> | ?]; [by left | by right].
        -- intros [[_ ->] | ?]; [by left | by right].
    + rewrite IH by (by apply nonspace_snoc). by rewrite <- app_assoc.
Qed.

(** [split] returns exactly the whitespace-delimited tokens. *)
Lemma split_spec (s tok : str) : tok ∈ split s ↔ token tok s.
Proof. unfold split. by rewrite split_from_spec by constructor. Qed.

End Tokens.

(** ** The fuzzy match engine *)

Section FuzzyMatch.
Context `{!Unicode}.

Lemma fuzzy_matchb_spec query c : fuzzy_matchb query c = true ↔ fuzzy_match query c.
Proof.
  unfold fuzzy_matchb, fuzzy_match.
  rewrite !orb_true_iff, !contains_spec, existsb_exists.
  split.
  - intros [[? | ?] | (tok & Hin & Hc)]; [by left | by right; left |].
    right; right. exists tok. split.
    + apply split_spec. by apply list_elem_of_In.
    + by apply contains_spec.
  - intros [? | [? | (tok & Htok & Hc)]]; [by left; left | by left; right |].
    right. exists tok. split.
    + apply list_elem_of_In. by apply split_spec.
    + by apply contains_spec.
Qed.

#[global] Instance fuzzy_match_dec query c : Decision (fuzzy_match query c).
Proof.
  refine (cast_if (decide (fuzzy_matchb query c = true)));
    abstract (by rewrite <- fuzzy_matchb_spec).
Defined.

Lemma fuzzy_match_refl query : fuzzy_match query query.
Proof. left. apply substring_refl. Qed.

Lemma fuzzy_step_matchb query similar c :
  fuzzy_step (lower query) similar c
  = if fuzzy_matchb query c then similar ++ [c] else similar.
Proof.
  unfold fuzzy_step, fuzzy_matchb.
  destruct (contains (lower query) (lower c) || contains (lower c) (lower query)); [done |].
  simpl. by destruct (existsb _ _).
Qed.

(** The loop collects the matching candidates, in order, after what it
    started with. *)
Lemma fuzzy_loop query similar (pool : list str) :
  foldl (fuzzy_step (lower query)) similar pool
  = similar ++ filter (fuzzy_match query) pool.
Proof.
  revert similar. induction pool as [|c pool IH]; intros similar; simpl.
  - by rewrite app_nil_r.
  - rewrite IH, fuzzy_step_matchb, filter_cons.
    destruct (decide (fuzzy_match query c)) as [Hm | Hm].
    + apply fuzzy_matchb_spec in Hm. rewrite Hm. by rewrite <- app_assoc.
    + destruct (fuzzy_matchb query c) eqn:Hb; [| done].
      by apply fuzzy_matchb_spec in Hb.
Qed.

(** The method is the function on the pool the flag chooses. *)
Lemma find_similar_courses_pool self course_name selected :
  find_similar_courses self course_name selected
  = find_similar course_name
      (if selected then elements (selected_courses self) else keys self).
Proof. done. Qed.

(** C2. If the query is a member of the pool, [find_similar] returns that
    member alone. Otherwise it returns the members of the pool that match
    (the lowercase query is a substring of the lowercase member, or the
    other way round, or a whitespace-delimited token of the lowercase query
    is a substring of the lowercase member), in the order of the pool. A
    pool without repetition gives a result without repetition, and the
    result is empty when no member matches. The function is total. *)
Theorem find_similar_spec (query : str) (pool : list str) :
  (query ∈ pool → find_similar query pool = [query]) ∧
  (query ∉ pool → find_similar query pool = filter (fuzzy_match query) pool) ∧
  (NoDup pool → NoDup (find_similar query pool)) ∧
  ((∀ c, c ∈ pool → ¬ fuzzy_match query c) → find_similar query pool = []).
Proof.
  unfold find_similar. rewrite fuzzy_loop. simpl.
  case_bool_decide as Hin; repeat split; try done.
  - intros _. apply NoDup_singleton.
  - intros Hno. destruct (Hno query Hin). apply fuzzy_match_refl.
  - intros Hnd. by apply NoDup_filter.
  - intros Hno. apply elem_of_nil_inv. intros c [Hc Hp]%list_elem_of_filter.
    by apply (Hno c).
Qed.

End FuzzyMatch.

(** ** Disambiguation *)

Lemma enumerate_from_lookup {A} (l : list A) k i :
  enumerate_from k l !! i = (λ x, ((k + i)%nat, x)) <$> l !! i.
Proof.
  revert k i. induction l as [|x l IH]; intros k [|i]; simpl; try done.
  - by rewrite Nat.add_0_r.
  - rewrite IH. by rewrite Nat.add_succ_r.
Qed.

Lemma enumerate_from_length {A} (l : list A) k : length (enumerate_from k l) = length l.
Proof. revert k. induction l; intros k; simpl; [done | by rewrite IHl]. Qed.

Lemma numbered_menu_spec similar :
  ∃ lines, numbered_menu similar = join nl lines ∧ menu_lines similar lines.
Proof.
  eexists. split; [reflexivity |]. split.
  - by rewrite length_map, enumerate_from_length.
  - intros i c Hc. by rewrite list_lookup_fmap, enumerate_from_lookup, Hc.
Qed.

Section Disambiguation.
Context `{!Unicode}.

(** What [select_course] does when the forced branch is not taken. *)
Lemma select_course_fuzzy course_name force self :
  force && bool_decide (course_name ∈ keys self) = false →
  (select_course course_name force self).1 = self ∧
  select_wording_ok course_name self (select_course course_name force self).2 ∧
  one_outcome (select_course course_name force self).2.
Proof.
  intros Hg. unfold select_course, select_wording_ok, disambiguated, one_outcome,
    exactly_one, is_not_found, is_confirm_one, is_choose_many.
  rewrite Hg.
  destruct (find_similar_courses self course_name false) as [|m [|m' ms]] eqn:Hs; simpl.
  - split; [done |]. split.
    + split; [done |]. split; [done | lia].
    + left. split; [done |]. split; [by intros [? _] | intros [_ ?]; lia].
  - split; [done |]. split.
    + split; [done |]. split; [by intros ? [= <-] | lia].
    + right; left. split; [by intros (_ & ? & _) |]. split; [by eauto | by intros [? _]].
  - split; [done |]. split.
    + split; [done |]. split; [done |]. intros _. repeat (split; [done |]).
      destruct (numbered_menu_spec (m :: m' :: ms)) as (lines & -> & Hl). eauto.
    + right; right. split; [by intros (_ & _ & ? & _) |].
      split; [by intros [? _] | split; [done | simpl; lia]].
Qed.

(** What [delete_course] does on a name that is not selected. *)
Lemma delete_course_fuzzy course_name force self :
  course_name ∉ selected_courses self →
  (delete_course course_name force self).1 = self ∧
  delete_wording_ok course_name self (delete_course course_name force self).2 ∧
  one_outcome (delete_course course_name force self).2.
Proof.
  intros Hn. unfold delete_course, delete_wording_ok, disambiguated, one_outcome,
    exactly_one, is_not_found, is_confirm_one, is_choose_many.
  rewrite (bool_decide_eq_false_2 _ Hn), andb_false_r.
  destruct (find_similar_courses self course_name true) as [|m [|m' ms]] eqn:Hs; simpl.
  - split; [done |]. split.
    + split; [done |]. split; [done | lia].
    + left. split; [done |]. split; [by intros [? _] | intros [_ ?]; lia].
  - split; [done |]. split.
    + split; [done |]. split; [by intros ? [= <-] | lia].
    + right; left. split; [by intros (_ & ? & _) |]. split; [by eauto | by intros [? _]].
  - split; [done |]. split.
    + split; [done |]. split; [done |]. intros _. repeat (split; [done |]).
      destruct (numbered_menu_spec (m :: m' :: ms)) as (lines & -> & Hl). eauto.
    + right; right. split; [by intros (_ & _ & ? & _) |].
      split; [by intros [? _] | split; [done | simpl; lia]].
Qed.

(** C1. A call of [select_course] without [force], and a call of
    [delete_course] on a name that is not in the selection, return a result
    whose shape follows the number of matches of [find_similar_courses]
    (over the catalog names for select, over the selection for delete): no
    match gives the not-found result; one match asks to confirm that match;
    several matches give the matches in order and a menu numbered from one.
    The result has exactly one of the three shapes. Both functions are total:
    the outcome is a value. *)
Theorem disambiguation_cardinality (course_name : str) (self : CourseSystem) :
  (select_wording_ok course_name self (select_course course_name false self).2 ∧
   one_outcome (select_course course_name false self).2) ∧
  (course_name ∉ selected_courses self → ∀ force,
   delete_wording_ok course_name self (delete_course course_name force self).2 ∧
   one_outcome (delete_course course_name force self).2).
Proof.
  split.
  - by apply (select_course_fuzzy course_name false self).
  - intros Hn force. by apply delete_course_fuzzy.
Qed.

End Disambiguation.

(** ** Forced selection and deletion *)

Section Operations.
Context `{!Unicode}.

(** The effect of the two operations on the state. *)
Lemma select_course_state course_name force self :
  (select_course course_name force self).1
  = if force && bool_decide (course_name ∈ keys self)
         && negb (bool_decide (course_name ∈ selected_courses self))
    then with_selected self ({[course_name]} ∪ selected_courses self)
    else self.
Proof.
  unfold select_course.
  destruct (force && bool_decide (course_name ∈ keys self)); simpl.
  - by case_bool_decide.
  - by destruct (find_similar_courses _ _ _) as [|? [|? ?]].
Qed.

Lemma delete_course_state course_name force self :
  (delete_course course_name force self).1
  = if force && bool_decide (course_name ∈ selected_courses self)
    then with_selected self (selected_courses self ∖ {[course_name]})
    else self.
Proof.
  unfold delete_course.
  destruct (force && bool_decide (course_name ∈ selected_courses self)); simpl; [done |].
  case_bool_decide; [done |].
  by destruct (find_similar_courses _ _ _) as [|? [|? ?]].
Qed.

(** A disambiguation never reports success. *)
Lemma disambiguated_failure not_found ask header matches r :
  disambiguated not_found ask header matches r → success r = false.
Proof.
  intros (H0 & H1 & Hn). destruct matches as [|m [|m' ms]].
  - by rewrite H0.
  - by rewrite (H1 m).
  - apply Hn. simpl. lia.
Qed.

(** C3, as the code has it. [select_course] with [force]: a name outside the
    catalog leaves the state unchanged and fails, and the call is then the
    same as the call without [force] (the disambiguation over the catalog
    names, whose not-found message appears only when nothing matches); a
    name of the catalog that is already selected fails with the
    already-selected message and changes nothing; any other name of the
    catalog is inserted, with success. A second forced call after a
    successful one changes nothing and reports the already-selected
    failure. *)
Theorem select_force_spec (course_name : str) (self : CourseSystem) :
  (course_name ∉ keys self →
     (select_course course_name true self).1 = self ∧
     success (select_course course_name true self).2 = false ∧
     select_course course_name true self = select_course course_name false self ∧
     select_wording_ok course_name self (select_course course_name true self).2) ∧
  (course_name ∈ keys self → course_name ∈ selected_courses self →
     select_course course_name true self = (self, already_selected course_name)) ∧
  (course_name ∈ keys self → course_name ∉ selected_courses self →
     let self1 := with_selected self ({[course_name]} ∪ selected_courses self) in
     select_course course_name true self = (self1, selected_ok course_name) ∧
     select_course course_name true self1 = (self1, already_selected course_name)).
Proof.
  split; [| split].
  - intros Hn.
    assert (true && bool_decide (course_name ∈ keys self) = false) as Hg.
    { by rewrite (bool_decide_eq_false_2 _ Hn). }
    destruct (select_course_fuzzy course_name true self Hg) as (Hst & Hw & _).
    split; [done |]. split; [by eapply disambiguated_failure |]. split; [| done].
    unfold select_course. by rewrite Hg.
  - intros Hk Hs. unfold select_course.
    by rewrite (bool_decide_eq_true_2 _ Hk), (bool_decide_eq_true_2 _ Hs).
  - intros Hk Hs. simpl. unfold select_course. simpl.
    rewrite (bool_decide_eq_true_2 _ Hk), (bool_decide_eq_false_2 _ Hs).
    split; [done |]. simpl. unfold keys. simpl.
    rewrite (bool_decide_eq_true_2 _ Hk).
    rewrite bool_decide_eq_true_2 by (apply elem_of_union_l; by apply elem_of_singleton).
    done.
Qed.

(** C4, as the code has it. [delete_course] with [force]: a selected name is
    removed, with success; any other name leaves the state unchanged and
    fails, and the result is the disambiguation over the selection, which
    asks for a confirmation exactly when a single selected course matches. *)
Theorem delete_force_spec (course_name : str) (self : CourseSystem) :
  (course_name ∈ selected_courses self →
     delete_course course_name true self
     = (with_selected self (selected_courses self ∖ {[course_name]}),
        deleted_ok course_name)) ∧
  (course_name ∉ selected_courses self →
     (delete_course course_name true self).1 = self ∧
     success (delete_course course_name true self).2 = false ∧
     delete_wording_ok course_name self (delete_course course_name true self).2 ∧
     (needs_confirmation (delete_course course_name true self).2 = true
      ↔ ∃ m, find_similar_courses self course_name true = [m])).
Proof.
  split.
  - intros Hs. unfold delete_course. by rewrite (bool_decide_eq_true_2 _ Hs).
  - intros Hn.
    destruct (delete_course_fuzzy course_name true self Hn) as (Hst & Hw & _).
    split; [done |]. split; [by eapply disambiguated_failure |]. split; [done |].
    unfold delete_course. rewrite (bool_decide_eq_false_2 _ Hn). simpl.
    destruct (find_similar_courses self course_name true) as [|m [|m' ms]]; simpl.
    + split; [done | by intros [? ?]].
    + split; [by eauto | done].
    + split; [done | by intros [? ?]].
Qed.

(** C8. [select_course] without [force] returns the state it was given. *)
Theorem select_noforce_frame (course_name : str) (self : CourseSystem) :
  (select_course course_name false self).1 = self.
Proof. by rewrite select_course_state. Qed.

(** C9, as the code has it. For a course that is not in the selection, a
    forced delete right after a forced select gives back the selection the
    select started from. *)
Theorem select_delete_symmetry (c : str) (self : CourseSystem) :
  c ∉ selected_courses self →
  selected_courses
    (delete_course c true (select_course c true self).1).1
  = selected_courses self.
Proof.
  intros Hn. rewrite delete_course_state, select_course_state.
  rewrite (bool_decide_eq_false_2 _ Hn). simpl.
  destruct (bool_decide (c ∈ keys self)); simpl.
  - rewrite bool_decide_eq_true_2 by (apply elem_of_union_l; by apply elem_of_singleton).
    simpl. apply set_eq. intros x.
    rewrite elem_of_difference, elem_of_union, !elem_of_singleton. split.
    + by intros [[-> | Hx] Hne].
    + intros Hx. split; [by right | by intros ->].
  - by rewrite (bool_decide_eq_false_2 _ Hn).
Qed.

(** C10. Every result of [select_course] and of [delete_course] has
    exclusive outcome fields: success comes without a confirmation request,
    without a menu and without a course to confirm; a confirmation request
    comes with a course to confirm, without success and without a menu; a
    menu comes without success, without a confirmation request and without a
    course to confirm. *)
Theorem result_fields_exclusive (course_name : str) (force : bool) (self : CourseSystem) :
  exclusive_fields (select_course course_name force self).2 ∧
  exclusive_fields (delete_course course_name force self).2.
Proof.
  unfold exclusive_fields, select_course, delete_course. split.
  - destruct (force && bool_decide (course_name ∈ keys self)).
    + case_bool_decide; simpl; naive_solver.
    + destruct (find_similar_courses _ _ _) as [|? [|? ?]]; simpl; naive_solver.
  - destruct (force && bool_decide (course_name ∈ selected_courses self)); simpl;
      [naive_solver |].
    case_bool_decide; simpl; [naive_solver |].
    destruct (find_similar_courses _ _ _) as [|? [|? ?]]; simpl; naive_solver.
Qed.

(** C7. A fresh system has an empty selection; every call of
    [select_course] and [delete_course] keeps the catalog as it is and keeps
    the selection inside the catalog; so the selection is inside the catalog
    after any run of such calls from a fresh system. *)
Theorem selection_within_catalog :
  (∀ catalog, selected_courses (new_system catalog) = ∅) ∧
  (∀ c self, selection_in_catalog self →
     courses (call c self).1 = courses self ∧
     selection_in_catalog (call c self).1) ∧
  (∀ catalog calls, selection_in_catalog (run calls (new_system catalog))).
Proof.
  assert (∀ c self, selection_in_catalog self →
     courses (call c self).1 = courses self ∧
     selection_in_catalog (call c self).1) as Hstep.
  { intros [n f | n f] self Hinv; simpl.
    - rewrite select_course_state.
      destruct f; simpl; [| done].
      case_bool_decide as Hk; simpl; [| done].
      case_bool_decide as Hs; simpl; [done |].
      split; [done |]. intros c. unfold keys. simpl.
      intros [->%elem_of_singleton | Hc]%elem_of_union; [done | by apply Hinv].
    - rewrite delete_course_state.
      destruct (f && bool_decide (n ∈ selected_courses self)); simpl; [| done].
      split; [done |]. intros c. unfold keys. simpl.
      intros [Hc _]%elem_of_difference. by apply Hinv. }
  split; [done |]. split; [exact Hstep |].
  intros catalog calls.
  assert (selection_in_catalog (new_system catalog)) as Hinit.
  { intros c. simpl. by intros ?%not_elem_of_empty. }
  revert Hinit. generalize (new_system catalog).
  induction calls as [|c calls IH]; intros self Hinv; simpl; [done |].
  apply IH. by apply Hstep.
Qed.

End Operations.

(** ** Conversation history *)

(** One append keeps the last [max_history] entries of the longer list. *)
Lemma add_message_history role content cm :
  (0 ≤ max_history cm)%Z → within_capacity cm →
  add_message role content cm
  = Some {| history :=
              drop (length (history cm) + 1 - Z.to_nat (max_history cm))
                   (history cm ++ [message_of role content]);
            max_history := max_history cm |}.
Proof.
  unfold within_capacity, add_message, message_of. intros Hcap Hlen.
  rewrite length_app. simpl.
  destruct (Z.gtb_spec (Z.of_nat (length (history cm) + 1)) (max_history cm)) as [Hgt | Hle].
  - replace (length (history cm) + 1 - Z.to_nat (max_history cm))%nat with 1%nat by lia.
    by destruct (history cm).
  - replace (length (history cm) + 1 - Z.to_nat (max_history cm))%nat with 0%nat by lia.
    done.
Qed.

Lemma add_messages_history msgs cm :
  (0 ≤ max_history cm)%Z → within_capacity cm →
  add_messages msgs cm
  = Some {| history :=
              drop (length (history cm ++ msgs) - Z.to_nat (max_history cm))
                   (history cm ++ msgs);
            max_history := max_history cm |}.
Proof.
  revert cm. induction msgs as [|m msgs IH]; intros cm Hcap Hlen.
  - simpl. rewrite app_nil_r. unfold within_capacity in Hlen.
    replace (length (history cm) - Z.to_nat (max_history cm))%nat with 0%nat by lia.
    by destruct cm.
  - cbn [add_messages]. rewrite add_message_history by done.
    cbn [mbind option_bind]. rewrite IH; cbn [history max_history]; [| done |].
    + f_equal. f_equal. unfold within_capacity, message_of in *.
      destruct m as [r c]. cbn [role content].
      set (n := Z.to_nat (max_history cm)).
      set (h := history cm) in *.
      assert (length h ≤ n)%nat as Hn by lia.
      replace (h ++ {| role := r; content := c |} :: msgs)
        with ((h ++ [{| role := r; content := c |}]) ++ msgs) by by rewrite <- app_assoc.
      set (h1 := h ++ [{| role := r; content := c |}]).
      assert (length h1 = length h + 1)%nat as Hh1.
      { unfold h1. rewrite length_app. simpl. lia. }
      rewrite <- Hh1.
      rewrite <- (drop_app_le h1 msgs (length h1 - n)) by lia.
      rewrite drop_drop. f_equal.
      rewrite length_drop, !length_app. lia.
    + unfold within_capacity. cbn [history max_history].
      rewrite length_drop, length_app. simpl. unfold within_capacity in Hlen. lia.
Qed.

(** C6. With a capacity that is not negative: an append never fails and
    keeps the length of the history within the capacity; from the empty
    history, a run of appends leaves the last entries appended, in order,
    as many as fit; after more appends than the capacity the history has
    exactly as many entries as the capacity, and the entries dropped are the
    oldest ones. *)
Theorem history_bounded_fifo (capacity : Z) (msgs : list Message) :
  (0 ≤ capacity)%Z →
  (∀ cm role content, max_history cm = capacity → within_capacity cm →
     ∃ cm', add_message role content cm = Some cm' ∧
            max_history cm' = capacity ∧ within_capacity cm') ∧
  ∃ cm, add_messages msgs (new_ConversationManager capacity) = Some cm ∧
        max_history cm = capacity ∧ within_capacity cm ∧
        history cm = drop (length msgs - Z.to_nat capacity) msgs ∧
        ((capacity < Z.of_nat (length msgs))%Z →
           length (history cm) = Z.to_nat capacity ∧
           take (length msgs - Z.to_nat capacity) msgs ++ history cm = msgs).
Proof.
  intros Hcap. split.
  - intros cm r c Hmax Hlen. eexists. split.
    + apply add_message_history; [by rewrite Hmax | done].
    + split; [done |]. unfold within_capacity in *. cbn [history max_history].
      rewrite length_drop, length_app. simpl. lia.
  - eexists. split.
    + apply add_messages_history; [done |]. unfold within_capacity. simpl. lia.
    + cbn [history max_history new_ConversationManager app].
      split; [done |]. split.
      * unfold within_capacity. cbn [history max_history]. rewrite length_drop. lia.
      * split; [done |]. intros Hlt. split.
        -- rewrite length_drop. lia.
        -- apply take_drop.
Qed.

(** ** Queries *)

Section SortFacts.
Context {A : Type} (key : A → nat).

Lemma insert_desc_perm x l : insert_desc key x l ≡ₚ x :: l.
Proof.
  induction l as [|y l IH]; simpl; [done |].
  destruct (key x <? key y)%nat; [| done].
  rewrite IH. apply perm_swap.
Qed.

Lemma sort_desc_perm l : sort_desc key l ≡ₚ l.
Proof.
  induction l as [|x l IH]; simpl; [done |].
  by rewrite insert_desc_perm, IH.
Qed.

Lemma insert_desc_sorted x l :
  descending key l → descending key (insert_desc key x l).
Proof.
  unfold descending. induction 1 as [|y l Hs IH Hy]; simpl.
  - by repeat constructor.
  - destruct (Nat.ltb_spec (key x) (key y)) as [Hlt | Hge].
    + constructor; [done |]. apply Forall_forall. intros z Hz.
      rewrite insert_desc_perm in Hz. apply elem_of_cons in Hz as [-> | Hz]; [lia |].
      rewrite Forall_forall in Hy. by apply Hy.
    + constructor; [by constructor |]. constructor; [done |].
      eapply Forall_impl; [exact Hy |]. simpl. intros z Hz. lia.
Qed.

Lemma sort_desc_sorted l : descending key (sort_desc key l).
Proof.
  induction l as [|x l IH]; simpl; [constructor | by apply insert_desc_sorted].
Qed.

(** Stability: among the elements of one key, the order is untouched. *)
Lemma insert_desc_stable k x l :
  filter (λ y, key y = k) (insert_desc key x l) = filter (λ y, key y = k) (x :: l).
Proof.
  induction l as [|y l IH]; simpl; [done |].
  destruct (Nat.ltb_spec (key x) (key y)) as [Hlt | Hge]; [| done].
  rewrite !filter_cons in *. rewrite IH.
  destruct (decide (key y = k)), (decide (key x = k)); try done. lia.
Qed.

Lemma sort_desc_stable k l :
  filter (λ y, key y = k) (sort_desc key l) = filter (λ y, key y = k) l.
Proof.
  induction l as [|x l IH]; simpl; [done |].
  rewrite insert_desc_stable, !filter_cons, IH. done.
Qed.

End SortFacts.

Lemma insert_desc_ext {A} (f g : A → nat) x l :
  f x = g x → (∀ y, y ∈ l → f y = g y) → insert_desc f x l = insert_desc g x l.
Proof.
  intros Hx. induction l as [|y l IH]; intros Hl; simpl; [done |].
  rewrite Hx, (Hl y) by apply list_elem_of_here.
  rewrite IH; [done |]. intros z Hz. apply Hl. by apply list_elem_of_further.
Qed.

Lemma sort_desc_ext {A} (f g : A → nat) l :
  (∀ y, y ∈ l → f y = g y) → sort_desc f l = sort_desc g l.
Proof.
  induction l as [|x l IH]; intros Hl; simpl; [done |].
  rewrite IH by (intros z Hz; apply Hl; by apply list_elem_of_further).
  apply insert_desc_ext; [apply Hl, list_elem_of_here |].
  intros y Hy. apply Hl, list_elem_of_further.
  by rewrite <- (sort_desc_perm g l).
Qed.

Lemma query_step_wanted filters results item :
  query_step filters results item
  = if decide (wanted filters item) then results ++ [row_of item] else results.
Proof.
  unfold query_step, in_list, row_of. destruct item as [n info]. simpl.
  destruct (decide (wanted filters (n, info))) as [Hw | Hw];
    unfold wanted in Hw; simpl in Hw.
  - destruct Hw as [-> | Hin]; [done |].
    by rewrite (bool_decide_eq_true_2 _ Hin), orb_true_r.
  - destruct (truthy filters); simpl; [| by destruct Hw; left].
    rewrite bool_decide_eq_false_2; [done |]. intros Hin. apply Hw. by right.
Qed.

Lemma query_loop filters results cs :
  foldl (query_step filters) results cs
  = results ++ (row_of <$> filter (wanted filters) cs).
Proof.
  revert results. induction cs as [|item cs IH]; intros results; simpl.
  - by rewrite app_nil_r.
  - rewrite IH, query_step_wanted, filter_cons.
    destruct (decide (wanted filters item)); [| done].
    by rewrite <- app_assoc.
Qed.

(** In a dictionary, a key has one value. *)
Lemma getitem_NoDup cs k v : NoDup cs.*1 → (k, v) ∈ cs → getitem cs k = Some v.
Proof.
  induction cs as [|[k' v'] cs IH]; simpl; intros Hnd Hin.
  - by apply elem_of_nil in Hin.
  - apply NoDup_cons in Hnd as [Hk' Hnd].
    apply elem_of_cons in Hin as [[= -> ->] | Hin].
    + by rewrite bool_decide_eq_true_2.
    + rewrite bool_decide_eq_false_2; [by apply IH |].
      intros ->. apply Hk'. by apply (list_elem_of_fmap_2 fst _ (k', v)).
Qed.

(** The key the sort reads back from the catalog is the overlap of the
    row's own tags with the interests; the lookup does not fail. *)
Lemma sort_key_row self filters interests x :
  NoDup (keys self) → x ∈ filtered_rows filters self →
  sort_key self interests x = overlap (row_tags x) interests.
Proof.
  intros Hnd Hx. unfold filtered_rows in Hx.
  apply list_elem_of_fmap in Hx as ([n info] & -> & Hin).
  apply list_elem_of_filter in Hin as [_ Hin].
  unfold sort_key, row_of. simpl. by rewrite (getitem_NoDup _ _ info).
Qed.

(** C5. In a catalog (a dictionary: no key twice), [query_courses] returns
    the rows of the courses whose type is among the filters, all courses
    when the filters are empty or absent. Without interests the rows come in
    catalog order. With interests they are those rows rearranged: in
    descending order of the number of distinct tags of the course that are
    among the interests, the rows of one such number keeping the order they
    have in the catalog. *)
Theorem query_courses_spec (filters interests : option (list str)) (self : CourseSystem) :
  NoDup (keys self) →
  let key := λ x, overlap (row_tags x) (arg interests) in
  let rows := query_courses filters interests self in
  (truthy interests = false → rows = filtered_rows filters self) ∧
  (truthy interests = true →
     rows ≡ₚ filtered_rows filters self ∧
     descending key rows ∧
     ∀ k, filter (λ x, key x = k) rows
          = filter (λ x, key x = k) (filtered_rows filters self)).
Proof.
  intros Hnd key rows. unfold rows, query_courses.
  rewrite query_loop. simpl. fold (filtered_rows filters self). split.
  - by intros ->.
  - intros ->.
    rewrite (sort_desc_ext _ key) by (intros y Hy; by eapply sort_key_row).
    split; [apply sort_desc_perm |]. split; [apply sort_desc_sorted |].
    intros k. apply sort_desc_stable.
Qed.

(** * Further properties of the code *)

(** ** The fuzzy match engine *)

Lemma singleton_sublist {A} (x : A) (l : list A) : x ∈ l → [x] `sublist_of` l.
Proof.
  induction 1 as [x l | x y l _ IH].
  - apply sublist_skip, sublist_nil_l.
  - by apply sublist_cons.
Qed.

Lemma filter_all {A} (P : A → Prop) `{!∀ x, Decision (P x)} (l : list A) :
  (∀ x, x ∈ l → P x) → filter P l = l.
Proof.
  induction l as [|x l IH]; intros Hall; [done |].
  rewrite filter_cons, decide_True by apply Hall, list_elem_of_here.
  f_equal. apply IH. intros y Hy. by apply Hall, list_elem_of_further.
Qed.

Section FuzzyMatchMore.
Context `{!Unicode}.

Lemma find_similar_exact query (pool : list str) :
  query ∈ pool → find_similar query pool = [query].
Proof. intros Hin. unfold find_similar. by rewrite (bool_decide_eq_true_2 _ Hin). Qed.

Lemma find_similar_fuzzy query (pool : list str) :
  query ∉ pool → find_similar query pool = filter (fuzzy_match query) pool.
Proof.
  intros Hin. unfold find_similar.
  rewrite (bool_decide_eq_false_2 _ Hin). simpl. by rewrite fuzzy_loop.
Qed.

Lemma find_similar_sub query (pool : list str) :
  find_similar query pool `sublist_of` pool.
Proof.
  destruct (decide (query ∈ pool)) as [Hin | Hin].
  - rewrite find_similar_exact by done. by apply singleton_sublist.
  - rewrite find_similar_fuzzy by done. apply sublist_filter.
Qed.

Lemma find_similar_elem query (pool : list str) c :
  c ∈ find_similar query pool → c ∈ pool.
Proof. intros Hc. eapply elem_of_sublist; [done | apply find_similar_sub]. Qed.

(** In a string without whitespace the only token is the string itself. *)
Lemma token_nonspace tok s : nonspace s → token tok s → tok = s.
Proof.
  intros Hs (_ & _ & pre & suf & Heq & Hl & Hr).
  assert (pre = []) as -> by (eapply closed_left_nil; [exact Hs | exact Heq | done]).
  assert (suf = []) as ->.
  { eapply (closed_right_nil ([] ++ tok)); [exact Hs | by rewrite <- app_assoc | done]. }
  simpl in Heq. by rewrite app_nil_r in Heq.
Qed.

(** X1. Whatever the query, the result of [find_similar] is a subsequence
    of the pool: it holds members of the pool only, in the order of the pool,
    and is no longer than the pool. *)
Theorem find_similar_subsequence (query : str) (pool : list str) :
  find_similar query pool `sublist_of` pool ∧
  Forall (λ c, c ∈ pool) (find_similar query pool) ∧
  (length (find_similar query pool) ≤ length pool)%nat.
Proof.
  split; [apply find_similar_sub |]. split.
  - apply Forall_forall. intros c. apply find_similar_elem.
  - apply sublist_length, find_similar_sub.
Qed.

(** X2. Outside exact membership the search ignores case: two queries with
    the same lowercase form, neither a member of the pool, get the same
    result, and that result holds every member of the pool whose lowercase
    form is that of the query. *)
Theorem find_similar_ignores_case (q1 q2 : str) (pool : list str) :
  lower q1 = lower q2 → q1 ∉ pool → q2 ∉ pool →
  find_similar q1 pool = find_similar q2 pool ∧
  ∀ c, c ∈ pool → lower c = lower q1 → c ∈ find_similar q1 pool.
Proof.
  intros Hl H1 H2. split.
  - unfold find_similar.
    rewrite (bool_decide_eq_false_2 _ H1), (bool_decide_eq_false_2 _ H2).
    simpl. by rewrite Hl.
  - intros c Hc Hlc. rewrite find_similar_fuzzy by done.
    apply list_elem_of_filter. split; [| done].
    left. rewrite Hlc. apply substring_refl.
Qed.

(** X3. For a query whose lowercase form has no whitespace the keyword
    branch adds nothing: a member of the pool is returned exactly when one of
    the two lowercase strings contains the other. *)
Theorem find_similar_one_word (query : str) (pool : list str) :
  nonspace (lower query) → query ∉ pool →
  ∀ c, c ∈ find_similar query pool ↔
       c ∈ pool ∧ (substring (lower query) (lower c) ∨
                   substring (lower c) (lower query)).
Proof.
  intros Hns Hin c. rewrite find_similar_fuzzy by done.
  rewrite list_elem_of_filter. unfold fuzzy_match. split.
  - intros [[Hm | [Hm | (tok & Htok & Hm)]] Hc]; split; try done; [by left | by right |].
    left. by rewrite <- (token_nonspace tok (lower query)).
  - intros [Hc [Hm | Hm]]; split; try done; [by left | by right; left].
Qed.

(** X4. The empty name matches everything: when it is not itself a name of
    the catalog, the search over the catalog returns all its names, and a
    select without [force] in a catalog of more than one course offers the
    whole catalog as its menu. *)
Theorem empty_name_offers_everything (self : CourseSystem) :
  lower [] = [] → [] ∉ keys self →
  find_similar_courses self [] false = keys self ∧
  ((1 < length (keys self))%nat →
     similar_courses (select_course [] false self).2 = keys self ∧
     needs_confirmation (select_course [] false self).2 = false).
Proof.
  intros Hl Hin.
  assert (find_similar_courses self [] false = keys self) as Heq.
  { unfold find_similar_courses. rewrite find_similar_fuzzy by done.
    apply filter_all. intros c _. left. rewrite Hl. by exists [], (lower c). }
  split; [done |]. intros Hlen. unfold select_course. simpl. rewrite Heq.
  destruct (keys self) as [|k1 [|k2 ks]]; simpl in *; [lia | lia | done].
Qed.

End FuzzyMatchMore.

(** ** Confirmation and choice *)

Section Protocol.
Context `{!Unicode}.

(** The forced call on a name of the catalog, and on a selected name. *)
Lemma select_force_member c self :
  c ∈ keys self →
  select_course c true self
  = if bool_decide (c ∈ selected_courses self)
    then (self, already_selected c)
    else (with_selected self ({[c]} ∪ selected_courses self), selected_ok c).
Proof. intros Hk. unfold select_course. by rewrite (bool_decide_eq_true_2 _ Hk). Qed.

Lemma delete_force_member c self :
  c ∈ selected_courses self →
  delete_course c true self
  = (with_selected self (selected_courses self ∖ {[c]}), deleted_ok c).
Proof. intros Hs. unfold delete_course. by rewrite (bool_decide_eq_true_2 _ Hs). Qed.

Lemma select_offer_in_catalog course_name force self c :
  offers (select_course course_name force self).2 c → c ∈ keys self.
Proof.
  unfold offers, select_course.
  destruct (force && bool_decide (course_name ∈ keys self)).
  - case_bool_decide; simpl; intros [? | ?%elem_of_nil]; done.
  - destruct (find_similar_courses self course_name false) as [|m [|m' ms]] eqn:Hs; simpl.
    + intros [? | ?%elem_of_nil]; done.
    + intros [[= <-] | ?%elem_of_nil]; [| done].
      apply (find_similar_elem course_name). unfold find_similar_courses in Hs.
      simpl in Hs. rewrite Hs. apply list_elem_of_here.
    + intros [? | Hc]; [done |].
      apply (find_similar_elem course_name). unfold find_similar_courses in Hs.
      simpl in Hs. by rewrite Hs.
Qed.

Lemma delete_offer_in_selection course_name force self c :
  offers (delete_course course_name force self).2 c → c ∈ selected_courses self.
Proof.
  unfold offers, delete_course.
  destruct (force && bool_decide (course_name ∈ selected_courses self)); simpl.
  { intros [? | ?%elem_of_nil]; done. }
  case_bool_decide as Hin; simpl.
  { intros [[= <-] | ?%elem_of_nil]; done. }
  assert (∀ x, x ∈ find_similar_courses self course_name true → x ∈ selected_courses self)
    as Hsub.
  { intros x Hx. apply elem_of_elements. by apply (find_similar_elem course_name). }
  destruct (find_similar_courses self course_name true) as [|m [|m' ms]]; simpl.
  - intros [? | ?%elem_of_nil]; done.
  - intros [[= <-] | ?%elem_of_nil]; [| done]. apply Hsub, list_elem_of_here.
  - intros [? | Hc]; [done | by apply Hsub].
Qed.

(** X5. A select without [force] of an exact catalog name does not select
    it: it leaves the state as it is and asks to confirm that very name,
    whether or not the course is already selected. *)
Theorem select_exact_name_confirms (course_name : str) (self : CourseSystem) :
  course_name ∈ keys self →
  select_course course_name false self
  = (self, {| success := false;
              message := u "您是否想选择 '" ++ course_name ++ u "' ？";
              similar_courses := [];
              needs_confirmation := true;
              course_to_confirm := Some course_name |}).
Proof.
  intros Hk. unfold select_course, find_similar_courses. simpl.
  by rewrite find_similar_exact.
Qed.

(** X6. Whatever [select_course] offers, the course to confirm or an entry
    of its menu, is a name of the catalog; so the forced select of it that
    follows a confirmation or a choice is never disambiguated again: it
    selects the course, or reports that it is already selected. *)
Theorem select_offer_sound (course_name : str) (force : bool) (self : CourseSystem) (c : str) :
  offers (select_course course_name force self).2 c →
  c ∈ keys self ∧
  select_course c true self
  = if bool_decide (c ∈ selected_courses self)
    then (self, already_selected c)
    else (with_selected self ({[c]} ∪ selected_courses self), selected_ok c).
Proof.
  intros Ho. apply select_offer_in_catalog in Ho.
  split; [done | by apply select_force_member].
Qed.

(** X7. Whatever [delete_course] offers, the course to confirm or an entry
    of its menu, is a selected course; so the forced delete of it that
    follows a confirmation or a choice always succeeds and removes exactly
    that course. *)
Theorem delete_offer_sound (course_name : str) (force : bool) (self : CourseSystem) (c : str) :
  offers (delete_course course_name force self).2 c →
  c ∈ selected_courses self ∧
  delete_course c true self
  = (with_selected self (selected_courses self ∖ {[c]}), deleted_ok c).
Proof.
  intros Ho. apply delete_offer_in_selection in Ho.
  split; [done | by apply delete_force_member].
Qed.

(** X8. A delete without [force] never changes the state, and on a selected
    name it skips the search and asks to confirm the delete of that name. *)
Theorem delete_noforce_confirms (course_name : str) (self : CourseSystem) :
  (delete_course course_name false self).1 = self ∧
  (course_name ∈ selected_courses self →
     (delete_course course_name false self).2
     = {| success := false;
          message := u "确认要退选 '" ++ course_name ++ u "' 吗？";
          similar_courses := [];
          needs_confirmation := true;
          course_to_confirm := Some course_name |}).
Proof.
  split; [by rewrite delete_course_state |].
  intros Hs. unfold delete_course. simpl. by rewrite (bool_decide_eq_true_2 _ Hs).
Qed.

(** X9. A run of calls none of which passes [force] ends in the state it
    started from. *)
Theorem unforced_run_frame (calls : list Call) (self : CourseSystem) :
  Forall (λ c, forced c = false) calls → run calls self = self.
Proof.
  induction 1 as [|c calls Hc _ IH]; simpl; [done |].
  destruct c as [n f | n f]; simpl in *; subst f.
  - by rewrite select_course_state.
  - by rewrite delete_course_state.
Qed.

(** X10. The success flag of [select_course] tells whether the selection
    changed: it is set exactly when the selection after the call differs
    from the one before, and then the call was forced on a catalog name that
    was not selected, which is now the one course more in the selection. *)
Theorem select_success_iff_changed (course_name : str) (force : bool) (self : CourseSystem) :
  let res := select_course course_name force self in
  (success res.2 = true ↔ selected_courses res.1 ≠ selected_courses self) ∧
  (success res.2 = true →
     force = true ∧ course_name ∈ keys self ∧ (course_name ∉ selected_courses self) ∧
     selected_courses res.1 = {[course_name]} ∪ selected_courses self ∧
     size (selected_courses res.1) = S (size (selected_courses self))).
Proof.
  unfold select_course.
  destruct force; simpl;
    [case_bool_decide as Hk; simpl; [case_bool_decide as Hs; simpl |] |].
  - split; [split; [done | by intros []] | done].
  - split.
    + split; [| done]. intros _ Heq. apply Hs. rewrite <- Heq.
      by apply elem_of_union_l, elem_of_singleton.
    + intros _. repeat (split; [done |]).
      rewrite size_union by (apply disjoint_singleton_l; done).
      by rewrite size_singleton.
  - destruct (find_similar_courses _ _ _) as [|? [|? ?]]; simpl;
      (split; [split; [done | by intros []] | done]).
  - destruct (find_similar_courses _ _ _) as [|? [|? ?]]; simpl;
      (split; [split; [done | by intros []] | done]).
Qed.

(** X11. The success flag of [delete_course] tells whether the selection
    changed: it is set exactly when the selection after the call differs
    from the one before, and then the call was forced on a selected course,
    which is now the one course less in the selection. *)
Theorem delete_success_iff_changed (course_name : str) (force : bool) (self : CourseSystem) :
  let res := delete_course course_name force self in
  (success res.2 = true ↔ selected_courses res.1 ≠ selected_courses self) ∧
  (success res.2 = true →
     force = true ∧ course_name ∈ selected_courses self ∧
     selected_courses res.1 = selected_courses self ∖ {[course_name]} ∧
     size (selected_courses self) = S (size (selected_courses res.1))).
Proof.
  unfold delete_course.
  destruct force; simpl; [case_bool_decide as Hs; simpl |].
  - split.
    + split; [| done]. intros _ Heq.
      assert (course_name ∈ selected_courses self ∖ {[course_name]}) as Hc
        by by rewrite Heq.
      apply elem_of_difference in Hc as [_ Hc]. by apply Hc, elem_of_singleton.
    + intros _. repeat (split; [done |]).
      rewrite size_difference by by apply singleton_subseteq_l.
      rewrite size_singleton.
      assert (size (selected_courses self) ≠ 0)%nat; [| lia].
      apply size_non_empty_iff. intros He.
      apply (not_elem_of_empty (C:=gset str) course_name). by rewrite <- He.
  - destruct (find_similar_courses _ _ _) as [|? [|? ?]]; simpl;
      (split; [split; [done | by intros []] | done]).
  - case_bool_decide; simpl; [split; [split; [done | by intros []] | done] |].
    destruct (find_similar_courses _ _ _) as [|? [|? ?]]; simpl;
      (split; [split; [done | by intros []] | done]).
Qed.

(** X12. For a selected course of the catalog, a forced select right after
    a forced delete gives back the selection the delete started from. *)
Theorem delete_select_roundtrip (c : str) (self : CourseSystem) :
  c ∈ keys self → c ∈ selected_courses self →
  selected_courses (select_course c true (delete_course c true self).1).1
  = selected_courses self.
Proof.
  intros Hk Hs. rewrite select_course_state, delete_course_state.
  rewrite (bool_decide_eq_true_2 _ Hs). simpl. unfold keys. simpl.
  rewrite (bool_decide_eq_true_2 _ Hk).
  rewrite bool_decide_eq_false_2; simpl.
  - apply set_eq. intros x.
    rewrite elem_of_union, elem_of_difference, !elem_of_singleton. split.
    + by intros [-> | [Hx _]].
    + intros Hx. destruct (decide (x = c)) as [-> | Hne]; [by left | by right].
  - intros [_ Hc]%elem_of_difference. by apply Hc, elem_of_singleton.
Qed.

Lemma run_selected_origin calls self c :
  c ∈ selected_courses (run calls self) →
  c ∈ selected_courses self ∨ (Select c true ∈ calls ∧ c ∈ keys self).
Proof.
  revert self. induction calls as [|[n f | n f] calls IH]; intros self; simpl; [by left | |].
  - intros [Hc | [Hc Hk]]%IH.
    + rewrite select_course_state in Hc.
      destruct f; simpl in Hc; [| by left].
      case_bool_decide as Hn; simpl in Hc; [| by left].
      case_bool_decide as Hs; simpl in Hc; [by left |].
      apply elem_of_union in Hc as [->%elem_of_singleton | Hc]; [| by left].
      right. split; [apply list_elem_of_here | done].
    + right. split; [by apply list_elem_of_further |].
      rewrite select_course_state in Hk.
      by destruct (f && _ && _).
  - intros [Hc | [Hc Hk]]%IH.
    + rewrite delete_course_state in Hc.
      destruct (f && _); simpl in Hc; [| by left].
      apply elem_of_difference in Hc as [Hc _]. by left.
    + right. split; [by apply list_elem_of_further |].
      rewrite delete_course_state in Hk.
      by destruct (f && _).
Qed.

(** X13. Only a forced select with the exact name puts a course into the
    selection: after any run of calls from a fresh system, every selected
    course is a name of the catalog that some call of the run selected by
    that name with [force]. A fuzzy match alone selects nothing. *)
Theorem selection_only_by_forced_select (catalog : list (str * CourseInfo))
    (calls : list Call) :
  Forall (λ c, Select c true ∈ calls ∧ c ∈ catalog.*1)
    (elements (selected_courses (run calls (new_system catalog)))).
Proof.
  apply Forall_forall. intros c Hc%elem_of_elements.
  apply run_selected_origin in Hc as [Hc | Hc]; [| done].
  simpl in Hc. by apply not_elem_of_empty in Hc.
Qed.

End Protocol.

(** ** Queries, listing and validation *)

Lemma getitem_key cs k :
  k ∈ cs.*1 → ∃ info, getitem cs k = Some info ∧ (k, info) ∈ cs.
Proof.
  induction cs as [|[k' v'] cs IH]; simpl; [by intros ?%elem_of_nil |].
  case_bool_decide as Hk.
  - intros _. subst k'. exists v'. split; [done | apply list_elem_of_here].
  - intros [-> | Hin]%elem_of_cons; [done |].
    destruct (IH Hin) as (info & Hg & Hm). exists info.
    split; [done | by apply list_elem_of_further].
Qed.

Lemma getitem_missing cs k : getitem cs k = None → k ∉ cs.*1.
Proof.
  intros Hg Hin. destruct (getitem_key cs k Hin) as (info & Hg' & _). congruence.
Qed.

Lemma show_rows_return cs names :
  (∀ n, n ∈ names → n ∈ cs.*1) →
  ∃ rows, show_rows cs names = Return rows ∧ map name rows = names ∧
          Forall (λ x, x ∈ row_of <$> cs) rows.
Proof.
  induction names as [|n names IH]; intros Hall; simpl.
  - exists []. by repeat split.
  - destruct (getitem_key cs n) as (info & -> & Hm); [apply Hall, list_elem_of_here |].
    destruct IH as (rows & -> & Hn & Hr).
    { intros m Hm'. by apply Hall, list_elem_of_further. }
    eexists. split; [done |]. simpl. split; [by rewrite Hn |].
    constructor; [| done]. by apply (list_elem_of_fmap_2 row_of _ (n, info)).
Qed.

Lemma show_rows_raise cs names e :
  show_rows cs names = Raise e → ∃ k, e = KeyError k ∧ k ∈ names ∧ k ∉ cs.*1.
Proof.
  induction names as [|n names IH]; simpl; [done |].
  destruct (getitem cs n) as [info |] eqn:Hg.
  - destruct (show_rows cs names) as [rows | e']; [done |].
    intros [= ->]. destruct (IH eq_refl) as (k & -> & Hk & Hn).
    exists k. split; [done |]. split; [by apply list_elem_of_further | done].
  - intros [= <-]. exists n. split; [done |].
    split; [apply list_elem_of_here | by apply getitem_missing].
Qed.

Lemma query_courses_perm filters interests self :
  query_courses filters interests self ≡ₚ filtered_rows filters self.
Proof.
  unfold query_courses. rewrite query_loop. simpl. fold (filtered_rows filters self).
  destruct (truthy interests); [apply sort_desc_perm | done].
Qed.

Lemma overlap_same_set tags (i1 i2 : list str) :
  (∀ t, t ∈ i1 ↔ t ∈ i2) → overlap tags i1 = overlap tags i2.
Proof.
  intros Hi. unfold overlap. f_equal. f_equal.
  apply set_eq. intros t. by rewrite !elem_of_list_to_set.
Qed.

Section QueryMore.
Context `{!Unicode}.

(** X14. Every row a query returns is the row of a catalog entry, with its
    type and tags, and passes the type filter when there is one; its name is
    a name of the catalog, so the forced select of a course picked from the
    listing is never disambiguated: it selects the course or reports that
    it is already selected. *)
Theorem query_rows_selectable (filters interests : option (list str))
    (self : CourseSystem) (x : CourseRow) :
  x ∈ query_courses filters interests self →
  (∃ info, (name x, info) ∈ courses self ∧
           row_type x = type info ∧ row_tags x = tags info) ∧
  (truthy filters = true → row_type x ∈ arg filters) ∧
  select_course (name x) true self
  = if bool_decide (name x ∈ selected_courses self)
    then (self, already_selected (name x))
    else (with_selected self ({[name x]} ∪ selected_courses self),
          selected_ok (name x)).
Proof.
  rewrite query_courses_perm. unfold filtered_rows.
  intros ([n info] & -> & [Hw Hin]%list_elem_of_filter)%list_elem_of_fmap. simpl.
  split; [by exists info |]. split.
  - intros Ht. destruct Hw as [Hw | Hw]; [congruence | done].
  - apply select_force_member. by apply (list_elem_of_fmap_2 fst _ (n, info)).
Qed.

End QueryMore.

(** X15. The interests count as a set: two lists of interests with the same
    members, in any order and with any repetition, give the same query
    result. *)
Theorem query_interests_as_set (filters : option (list str)) (i1 i2 : list str)
    (self : CourseSystem) :
  (∀ t, t ∈ i1 ↔ t ∈ i2) →
  query_courses filters (Some i1) self = query_courses filters (Some i2) self.
Proof.
  intros Hi. unfold query_courses.
  assert (truthy (Some i1) = truthy (Some i2)) as ->.
  { destruct i1 as [|a i1], i2 as [|b i2]; simpl; try done.
    - exfalso. apply (elem_of_nil b), Hi, list_elem_of_here.
    - exfalso. apply (elem_of_nil a), Hi, list_elem_of_here. }
  destruct (truthy (Some i2)); [| done]. simpl.
  apply sort_desc_ext. intros y _. unfold sort_key.
  destruct (getitem (courses self) (name y)); [| done].
  by apply overlap_same_set.
Qed.

(** X16. With interests, the best match comes first: in a catalog (no key
    twice) the first row of the result shares at least as many tags with the
    interests as any course that passes the filter. *)
Theorem query_best_first (filters interests : option (list str)) (self : CourseSystem)
    (x : CourseRow) (rest : list CourseRow) :
  NoDup (keys self) → truthy interests = true →
  query_courses filters interests self = x :: rest →
  ∀ y, y ∈ filtered_rows filters self →
       (overlap (row_tags y) (arg interests) ≤ overlap (row_tags x) (arg interests))%nat.
Proof.
  intros Hnd Ht Hq y Hy.
  assert (y ∈ x :: rest) as Hin by by rewrite <- Hq, query_courses_perm.
  unfold query_courses in Hq. rewrite query_loop, Ht in Hq. simpl in Hq.
  fold (filtered_rows filters self) in Hq.
  rewrite (sort_desc_ext _ (λ z, overlap (row_tags z) (arg interests))) in Hq
    by (intros z Hz; by eapply sort_key_row).
  pose proof (sort_desc_sorted (λ z, overlap (row_tags z) (arg interests))
                (filtered_rows filters self)) as Hs.
  rewrite Hq in Hs. unfold descending in Hs.
  apply elem_of_cons in Hin as [-> | Hin]; [done |].
  apply StronglySorted_inv in Hs as [_ Hall].
  rewrite Forall_forall in Hall. by apply Hall.
Qed.

(** X17. [show_selected_courses] on a state whose selection is inside the
    catalog does not raise: it returns the sentence when nothing is selected,
    and otherwise one row per selected course, in the iteration order of the
    selection, each the row of a catalog entry. It raises only [KeyError],
    for a selected name that is missing from the catalog. *)
Theorem show_selected_courses_spec (self : CourseSystem) :
  (selection_in_catalog self →
     (selected_courses self = ∅ ∧
      show_selected_courses self = Return (NothingSelected (u "您还没有选择任何课程"))) ∨
     (selected_courses self ≠ ∅ ∧
      ∃ rows, show_selected_courses self = Return (Listing rows) ∧
              map name rows = elements (selected_courses self) ∧
              Forall (λ x, x ∈ row_of <$> courses self) rows)) ∧
  (∀ e, show_selected_courses self = Raise e →
     ∃ k, e = KeyError k ∧ k ∈ selected_courses self ∧ k ∉ keys self).
Proof.
  unfold show_selected_courses. split.
  - intros Hinv. case_bool_decide as Hsz.
    + left. split; [| done]. apply leibniz_equiv. by apply size_empty_iff.
    + right. split.
      { intros He. apply Hsz. rewrite He. apply size_empty. }
      destruct (show_rows_return (courses self) (elements (selected_courses self)))
        as (rows & -> & Hn & Hr).
      { intros n Hn%elem_of_elements. by apply Hinv. }
      by exists rows.
  - intros e. case_bool_decide as Hsz; [done |].
    destruct (show_rows _ _) as [rows | e'] eqn:Hshow; [done |].
    intros [= ->]. destruct (show_rows_raise _ _ _ Hshow) as (k & -> & Hk & Hn).
    exists k. split; [done |]. split; [by apply elem_of_elements | done].
Qed.

Section ValidateMore.
Context `{!Unicode}.

(** X18. [validate_course_name] raises on the empty name, whatever the
    catalog holds, and otherwise answers whether the name is a name of the
    catalog. A name it accepts is found by the search as itself alone, and
    its forced select is never disambiguated. *)
Theorem validate_course_name_spec (course_name : str) (self : CourseSystem) :
  (validate_course_name [] self = Raise (ValidationError (u "课程名称无效"))) ∧
  (validate_course_name course_name self = Return true
   ↔ course_name ≠ [] ∧ course_name ∈ keys self) ∧
  (validate_course_name course_name self = Return false
   ↔ course_name ≠ [] ∧ course_name ∉ keys self) ∧
  (validate_course_name course_name self = Return true →
     find_similar_courses self course_name false = [course_name] ∧
     select_course course_name true self
     = if bool_decide (course_name ∈ selected_courses self)
       then (self, already_selected course_name)
       else (with_selected self ({[course_name]} ∪ selected_courses self),
             selected_ok course_name)).
Proof.
  assert (validate_course_name course_name self = Return true
          ↔ course_name ≠ [] ∧ course_name ∈ keys self) as Htrue.
  { unfold validate_course_name. destruct course_name as [|a n]; simpl.
    - split; [done | by intros [? _]].
    - split.
      + intros [= Hb]. split; [done |]. by apply bool_decide_eq_true in Hb.
      + intros [_ Hk]. by rewrite (bool_decide_eq_true_2 _ Hk). }
  split; [done |]. split; [exact Htrue |]. split.
  - unfold validate_course_name. destruct course_name as [|a n]; simpl.
    + split; [done | by intros [? _]].
    + split.
      * intros [= Hb]. split; [done |]. by apply bool_decide_eq_false in Hb.
      * intros [_ Hk]. by rewrite (bool_decide_eq_false_2 _ Hk).
  - intros [_ Hk]%Htrue. split.
    + unfold find_similar_courses. simpl. by apply find_similar_exact.
    + by apply select_force_member.
Qed.

End ValidateMore.

(** ** The history and its transcript *)

Ltac case_ltb :=
  match goal with
  | |- context [(?a <? ?b)%Z] => destruct (Z.ltb_spec a b)
  end.

(** X19. [add_message] never raises, whatever the capacity and the history
    it starts from: the history grows by one entry while it is shorter than
    the capacity and keeps its length otherwise. With a capacity of one or
    more the new message is the last entry; with a capacity of zero or less
    an empty history stays empty. *)
Theorem add_message_total (role content : str) (cm : ConversationManager) :
  ∃ cm', add_message role content cm = Some cm' ∧
         max_history cm' = max_history cm ∧
         length (history cm')
         = (if (Z.of_nat (length (history cm)) <? max_history cm)%Z
            then S (length (history cm)) else length (history cm)) ∧
         ((0 < max_history cm)%Z →
            last (history cm') = Some (message_of role content)) ∧
         ((max_history cm ≤ 0)%Z → history cm = [] → history cm' = []).
Proof.
  unfold add_message. fold (message_of role content).
  rewrite length_app. simpl.
  destruct (Z.gtb_spec (Z.of_nat (length (history cm) + 1)) (max_history cm)) as [Hgt | Hle].
  - destruct (history cm) as [|m h] eqn:Hh; simpl.
    + eexists. split; [done |]. simpl. split; [done |]. split.
      * case_ltb; simpl in *; [lia | done].
      * split; [simpl in *; lia | done].
    + eexists. split; [done |]. simpl. split; [done |]. split.
      * rewrite length_app. simpl. case_ltb; simpl in *; lia.
      * split; [by rewrite last_snoc | done].
  - eexists. split; [done |]. simpl. split; [done |]. split.
    + rewrite length_app. simpl. case_ltb; lia.
    + split; [by rewrite last_snoc | lia].
Qed.

(** X20. The transcript shows the latest turns only: after a run of appends
    to an empty history of capacity [n] that ends with the [n] turns
    [recent], the transcript is that of [recent], one line per turn joined
    by line feeds, whatever came before. *)
Theorem transcript_window (capacity : Z) (earlier recent : list Message) :
  (0 ≤ capacity)%Z → length recent = Z.to_nat capacity →
  ∃ cm, add_messages (earlier ++ recent) (new_ConversationManager capacity) = Some cm ∧
        history cm = recent ∧
        get_recent_history cm = join nl (map transcript_line recent).
Proof.
  intros Hcap Hlen. eexists. split.
  - apply add_messages_history; [done |]. unfold within_capacity. simpl. lia.
  - cbn [history new_ConversationManager app max_history].
    assert (drop (length (earlier ++ recent) - Z.to_nat capacity) (earlier ++ recent)
            = recent) as Hd.
    { rewrite length_app, <- Hlen.
      replace (length earlier + length recent - length recent)%nat
        with (length earlier) by lia.
      apply drop_app_length. }
    split; [exact Hd |]. unfold get_recent_history. cbn [history]. by rewrite Hd.
Qed.

(** * The properties on the catalog of the program

    The theorems above hold for every case mapping and every notion of
    whitespace. Here they are applied to the catalog of the program, whose
    names are CJK text: lowercasing leaves them as they are. *)

Section OnTheCatalog.
#[local] Existing Instance plain_unicode.

(** One turn of a conversation. *)
Definition turn (r c : string) : Message := {| role := u r; content := u c |}.

(** The state after the student has taken 高等数学. *)
Definition took_maths : CourseSystem :=
  (select_course (u "高等数学") true new_CourseSystem).1.

Lemma find_similar_spec_witness :
  let pool := keys new_CourseSystem in
  let exact := u "信息安全" in
  let part := u "安全" in
  (exact ∈ pool ∧ find_similar exact pool = [exact]) ∧
  ((part ∉ pool) ∧ find_similar part pool = filter (fuzzy_match part) pool) ∧
  (NoDup pool ∧ NoDup (find_similar part pool)) ∧
  ((∀ c, c ∈ pool → ¬ fuzzy_match (u "量子") c) ∧ find_similar (u "量子") pool = []).
Proof.
  intros pool exact part.
  assert (exact ∈ pool) as H1 by (apply (bool_decide_unpack _); vm_compute; exact I).
  assert (part ∉ pool) as H2 by (apply (bool_decide_unpack _); vm_compute; exact I).
  assert (NoDup pool) as H3 by (apply (bool_decide_unpack _); vm_compute; exact I).
  assert (∀ c, c ∈ pool → ¬ fuzzy_match (u "量子") c) as H4.
  { apply Forall_forall. apply (bool_decide_unpack _). vm_compute. exact I. }
  split; [split; [exact H1 | by apply (find_similar_spec exact pool)] |].
  split; [split; [exact H2 | by apply (find_similar_spec part pool)] |].
  split; [split; [exact H3 | by apply (find_similar_spec part pool)] |].
  split; [exact H4 | by apply (find_similar_spec (u "量子") pool)].
Defined.

Lemma disambiguation_cardinality_witness :
  let self := run [Select (u "信息安全") true; Select (u "系统安全") true] new_CourseSystem in
  let part := u "安全" in
  (part ∉ selected_courses self) ∧
  (select_wording_ok part self (select_course part false self).2 ∧
   one_outcome (select_course part false self).2) ∧
  (delete_wording_ok part self (delete_course part false self).2 ∧
   one_outcome (delete_course part false self).2).
Proof.
  intros self part.
  assert (part ∉ selected_courses self) as Hn
    by (apply (bool_decide_unpack _); vm_compute; exact I).
  destruct (disambiguation_cardinality part self) as [Hs Hd].
  split; [exact Hn |]. split; [exact Hs | exact (Hd Hn false)].
Defined.

Lemma select_force_spec_witness :
  let unknown := u "高等" in
  let maths := u "高等数学" in
  let sport := u "体育" in
  ((unknown ∉ keys new_CourseSystem) ∧
   (select_course unknown true new_CourseSystem).1 = new_CourseSystem ∧
   success (select_course unknown true new_CourseSystem).2 = false ∧
   select_course unknown true new_CourseSystem
   = select_course unknown false new_CourseSystem) ∧
  (maths ∈ keys took_maths ∧ maths ∈ selected_courses took_maths ∧
   select_course maths true took_maths = (took_maths, already_selected maths)) ∧
  (sport ∈ keys took_maths ∧ (sport ∉ selected_courses took_maths) ∧
   select_course sport true took_maths
   = (with_selected took_maths ({[sport]} ∪ selected_courses took_maths),
      selected_ok sport)).
Proof.
  intros unknown maths sport.
  assert (unknown ∉ keys new_CourseSystem) as H1
    by (apply (bool_decide_unpack _); vm_compute; exact I).
  assert (maths ∈ keys took_maths) as H2
    by (apply (bool_decide_unpack _); vm_compute; exact I).
  assert (maths ∈ selected_courses took_maths) as H3
    by (apply (bool_decide_unpack _); vm_compute; exact I).
  assert (sport ∈ keys took_maths) as H4
    by (apply (bool_decide_unpack _); vm_compute; exact I).
  assert (sport ∉ selected_courses took_maths) as H5
    by (apply (bool_decide_unpack _); vm_compute; exact I).
  split; [| split].
  - destruct (select_force_spec unknown new_CourseSystem) as [Hu _].
    destruct (Hu H1) as (Ha & Hb & Hc & _).
    split; [exact H1 |]. split; [exact Ha |]. split; [exact Hb | exact Hc].
  - destruct (select_force_spec maths took_maths) as (_ & Hm & _).
    split; [exact H2 |]. split; [exact H3 | exact (Hm H2 H3)].
  - destruct (select_force_spec sport took_maths) as (_ & _ & Hn).
    split; [exact H4 |]. split; [exact H5 | exact (proj1 (Hn H4 H5))].
Defined.

(** C3, as first written, fails: 高等 is not a course of the catalog, and the
    forced select answers with a request to confirm 高等数学 instead of the
    not-found message. *)
Lemma select_force_unknown_counterexample :
  let r := (select_course (u "高等") true new_CourseSystem).2 in
  ¬ select_force_as_written (u "高等") new_CourseSystem ∧
  needs_confirmation r = true ∧
  course_to_confirm r = Some (u "高等数学") ∧
  message r = u "您是否想选择 '高等数学' ？".
Proof.
  split; [| by vm_compute].
  intros (H1 & _). destruct H1 as (_ & _ & Hmsg).
  { apply (bool_decide_unpack _). vm_compute. exact I. }
  vm_compute in Hmsg. discriminate.
Qed.

Lemma delete_force_spec_witness :
  let maths := u "高等数学" in
  let sport := u "体育" in
  (maths ∈ selected_courses took_maths ∧
   delete_course maths true took_maths
   = (with_selected took_maths (selected_courses took_maths ∖ {[maths]}),
      deleted_ok maths)) ∧
  ((sport ∉ selected_courses took_maths) ∧
   (delete_course sport true took_maths).1 = took_maths ∧
   success (delete_course sport true took_maths).2 = false).
Proof.
  intros maths sport.
  assert (maths ∈ selected_courses took_maths) as H1
    by (apply (bool_decide_unpack _); vm_compute; exact I).
  assert (sport ∉ selected_courses took_maths) as H2
    by (apply (bool_decide_unpack _); vm_compute; exact I).
  split.
  - destruct (delete_force_spec maths took_maths) as [Hm _].
    split; [exact H1 | exact (Hm H1)].
  - destruct (delete_force_spec sport took_maths) as [_ Hn].
    destruct (Hn H2) as (Ha & Hb & _).
    split; [exact H2 |]. split; [exact Ha | exact Hb].
Defined.

(** C4, as first written, fails: with 高等数学 selected, the forced delete of
    高等 (which is not selected) asks to confirm the delete of 高等数学. *)
Lemma delete_force_unselected_counterexample :
  let r := (delete_course (u "高等") true took_maths).2 in
  ¬ delete_force_as_written (u "高等") took_maths ∧
  needs_confirmation r = true ∧
  course_to_confirm r = Some (u "高等数学").
Proof.
  split; [| by vm_compute].
  intros (_ & H2). destruct H2 as (_ & _ & Hc).
  { apply (bool_decide_unpack _). vm_compute. exact I. }
  vm_compute in Hc. discriminate.
Qed.

Lemma select_delete_symmetry_witness :
  let sport := u "体育" in
  (sport ∉ selected_courses took_maths) ∧
  selected_courses (delete_course sport true (select_course sport true took_maths).1).1
  = selected_courses took_maths.
Proof.
  intros sport.
  assert (sport ∉ selected_courses took_maths) as Hn
    by (apply (bool_decide_unpack _); vm_compute; exact I).
  split; [exact Hn | exact (select_delete_symmetry sport took_maths Hn)].
Defined.

(** C9, as first written, fails: with 高等数学 selected, the forced select of
    高等数学 changes nothing and the forced delete then removes it, so the
    selection ends empty. *)
Lemma select_delete_symmetry_counterexample :
  let maths := u "高等数学" in
  let after := (delete_course maths true (select_course maths true took_maths).1).1 in
  ¬ symmetry_as_written maths took_maths ∧
  elements (selected_courses took_maths) = [maths] ∧
  elements (selected_courses after) = [].
Proof.
  split; [| by vm_compute].
  unfold symmetry_as_written. intros Heq.
  apply (f_equal elements) in Heq. vm_compute in Heq. discriminate.
Qed.

Lemma result_fields_exclusive_witness :
  let r1 := (select_course (u "体育") true new_CourseSystem).2 in
  let r2 := (delete_course (u "高等数学") false took_maths).2 in
  let r3 := (select_course (u "安全") false new_CourseSystem).2 in
  (success r1 = true ∧ needs_confirmation r1 = false ∧
   similar_courses r1 = [] ∧ course_to_confirm r1 = None) ∧
  (needs_confirmation r2 = true ∧ success r2 = false ∧
   similar_courses r2 = [] ∧ is_Some (course_to_confirm r2)) ∧
  (similar_courses r3 ≠ [] ∧ success r3 = false ∧
   needs_confirmation r3 = false ∧ course_to_confirm r3 = None).
Proof.
  intros r1 r2 r3.
  assert (success r1 = true) as H1 by (vm_compute; reflexivity).
  assert (needs_confirmation r2 = true) as H2 by (vm_compute; reflexivity).
  assert (similar_courses r3 ≠ []) as H3 by (vm_compute; discriminate).
  split; [| split].
  - destruct (result_fields_exclusive (u "体育") true new_CourseSystem) as [(Hs & _) _].
    split; [exact H1 | exact (Hs H1)].
  - destruct (result_fields_exclusive (u "高等数学") false took_maths) as [_ (_ & Hc & _)].
    split; [exact H2 | exact (Hc H2)].
  - destruct (result_fields_exclusive (u "安全") false new_CourseSystem) as [(_ & _ & Hm) _].
    split; [exact H3 | exact (Hm H3)].
Defined.

Lemma selection_within_catalog_witness :
  let c := Delete (u "高等数学") true in
  selection_in_catalog took_maths ∧
  courses (call c took_maths).1 = courses took_maths ∧
  selection_in_catalog (call c took_maths).1.
Proof.
  intros c. destruct selection_within_catalog as (_ & Hstep & Hrun).
  assert (selection_in_catalog took_maths) as Hinv
    by exact (Hrun init_courses [Select (u "高等数学") true]).
  split; [exact Hinv | exact (Hstep c took_maths Hinv)].
Defined.

Lemma history_bounded_fifo_witness :
  let msgs := [turn "user" "a"; turn "assistant" "b"; turn "user" "c";
               turn "assistant" "d"; turn "user" "e"] in
  let cm0 := {| history := [turn "user" "a"; turn "assistant" "b"; turn "user" "c"];
                max_history := 3 |} in
  (0 ≤ 3)%Z ∧
  (max_history cm0 = 3%Z ∧ within_capacity cm0 ∧
   ∃ cm', add_message (u "assistant") (u "d") cm0 = Some cm' ∧
          max_history cm' = 3%Z ∧ within_capacity cm') ∧
  ((3 < Z.of_nat (length msgs))%Z ∧
   ∃ cm, add_messages msgs (new_ConversationManager 3) = Some cm ∧
         history cm = [turn "user" "c"; turn "assistant" "d"; turn "user" "e"] ∧
         length (history cm) = 3%nat).
Proof.
  intros msgs cm0.
  assert (0 ≤ 3)%Z as H0 by lia.
  assert (max_history cm0 = 3%Z) as H1 by reflexivity.
  assert (within_capacity cm0) as H2 by (unfold within_capacity; simpl; lia).
  assert (3 < Z.of_nat (length msgs))%Z as H3 by (simpl; lia).
  destruct (history_bounded_fifo 3 msgs H0) as [Hstep (cm & Hrun & _ & _ & Hhist & Hover)].
  split; [exact H0 |]. split.
  - split; [exact H1 |]. split; [exact H2 |].
    exact (Hstep cm0 (u "assistant") (u "d") H1 H2).
  - split; [exact H3 |]. exists cm. split; [exact Hrun |].
    split; [exact Hhist | exact (proj1 (Hover H3))].
Defined.

Lemma query_courses_spec_witness :
  let electives := Some [u "选修"] in
  let interests := Some [u "安全"; u "云计算"] in
  let key := λ x, overlap (row_tags x) (arg interests) in
  NoDup (keys new_CourseSystem) ∧
  (truthy (@None (list str)) = false ∧
   query_courses electives None new_CourseSystem
   = filtered_rows electives new_CourseSystem) ∧
  (truthy interests = true ∧
   query_courses electives interests new_CourseSystem
   ≡ₚ filtered_rows electives new_CourseSystem ∧
   descending key (query_courses electives interests new_CourseSystem) ∧
   ∀ k, filter (λ x, key x = k) (query_courses electives interests new_CourseSystem)
        = filter (λ x, key x = k) (filtered_rows electives new_CourseSystem)).
Proof.
  intros electives interests key.
  assert (NoDup (keys new_CourseSystem)) as Hnd
    by (apply (bool_decide_unpack _); vm_compute; exact I).
  assert (truthy (@None (list str)) = false) as H1 by reflexivity.
  assert (truthy interests = true) as H2 by reflexivity.
  split; [exact Hnd |]. split.
  - destruct (query_courses_spec electives None new_CourseSystem Hnd) as [Hn _].
    split; [exact H1 | exact (Hn H1)].
  - destruct (query_courses_spec electives interests new_CourseSystem Hnd) as [_ Hs].
    split; [exact H2 | exact (Hs H2)].
Defined.

Lemma find_similar_ignores_case_witness :
  let q1 := u "ABC" in
  let q2 := u "abc" in
  let member := u "Abc" in
  let pool := [u "abcd"; member; u "xyz"] in
  lower q1 = lower q2 ∧ (q1 ∉ pool) ∧ (q2 ∉ pool) ∧
  find_similar q1 pool = find_similar q2 pool ∧
  member ∈ pool ∧ lower member = lower q1 ∧ member ∈ find_similar q1 pool.
Proof.
  intros q1 q2 member pool.
  assert (lower q1 = lower q2) as H1 by (vm_compute; reflexivity).
  assert (q1 ∉ pool) as H2 by (apply (bool_decide_unpack _); vm_compute; exact I).
  assert (q2 ∉ pool) as H3 by (apply (bool_decide_unpack _); vm_compute; exact I).
  assert (member ∈ pool) as H4 by (apply (bool_decide_unpack _); vm_compute; exact I).
  assert (lower member = lower q1) as H5 by (vm_compute; reflexivity).
  destruct (find_similar_ignores_case q1 q2 pool H1 H2 H3) as [Ha Hb].
  split; [exact H1 |]. split; [exact H2 |]. split; [exact H3 |]. split; [exact Ha |].
  split; [exact H4 |]. split; [exact H5 | exact (Hb member H4 H5)].
Defined.

Lemma find_similar_one_word_witness :
  let q := u "高等" in
  let c := u "高等数学" in
  let pool := keys new_CourseSystem in
  nonspace (lower q) ∧ (q ∉ pool) ∧
  (c ∈ find_similar q pool ↔
   c ∈ pool ∧ (substring (lower q) (lower c) ∨ substring (lower c) (lower q))).
Proof.
  intros q c pool.
  assert (nonspace (lower q)) as H1 by (apply (bool_decide_unpack _); vm_compute; exact I).
  assert (q ∉ pool) as H2 by (apply (bool_decide_unpack _); vm_compute; exact I).
  split; [exact H1 |]. split; [exact H2 | exact (find_similar_one_word q pool H1 H2 c)].
Defined.

Lemma empty_name_offers_everything_witness :
  let self := new_CourseSystem in
  lower [] = [] ∧ ([] ∉ keys self) ∧ (1 < length (keys self))%nat ∧
  find_similar_courses self [] false = keys self ∧
  similar_courses (select_course [] false self).2 = keys self.
Proof.
  intros self.
  assert (lower [] = []) as H1 by reflexivity.
  assert ([] ∉ keys self) as H2 by (apply (bool_decide_unpack _); vm_compute; exact I).
  assert (1 < length (keys self))%nat as H3 by (vm_compute; lia).
  destruct (empty_name_offers_everything self H1 H2) as [Ha Hb].
  split; [exact H1 |]. split; [exact H2 |]. split; [exact H3 |].
  split; [exact Ha | exact (proj1 (Hb H3))].
Defined.

Lemma select_exact_name_confirms_witness :
  let sport := u "体育" in
  sport ∈ keys took_maths ∧
  select_course sport false took_maths
  = (took_maths, {| success := false;
                    message := u "您是否想选择 '" ++ sport ++ u "' ？";
                    similar_courses := [];
                    needs_confirmation := true;
                    course_to_confirm := Some sport |}).
Proof.
  intros sport.
  assert (sport ∈ keys took_maths) as H1
    by (apply (bool_decide_unpack _); vm_compute; exact I).
  split; [exact H1 | exact (select_exact_name_confirms sport took_maths H1)].
Defined.

Lemma select_offer_sound_witness :
  let maths := u "高等数学" in
  let r := (select_course (u "高等") false new_CourseSystem).2 in
  offers r maths ∧ maths ∈ keys new_CourseSystem ∧
  select_course maths true new_CourseSystem
  = if bool_decide (maths ∈ selected_courses new_CourseSystem)
    then (new_CourseSystem, already_selected maths)
    else (with_selected new_CourseSystem ({[maths]} ∪ selected_courses new_CourseSystem),
          selected_ok maths).
Proof.
  intros maths r.
  assert (offers r maths) as H1 by (left; vm_compute; reflexivity).
  split; [exact H1 | exact (select_offer_sound (u "高等") false new_CourseSystem maths H1)].
Defined.

Lemma delete_offer_sound_witness :
  let maths := u "高等数学" in
  let r := (delete_course (u "高等") false took_maths).2 in
  offers r maths ∧ maths ∈ selected_courses took_maths ∧
  delete_course maths true took_maths
  = (with_selected took_maths (selected_courses took_maths ∖ {[maths]}),
     deleted_ok maths).
Proof.
  intros maths r.
  assert (offers r maths) as H1 by (left; vm_compute; reflexivity).
  split; [exact H1 | exact (delete_offer_sound (u "高等") false took_maths maths H1)].
Defined.

Lemma delete_noforce_confirms_witness :
  let maths := u "高等数学" in
  maths ∈ selected_courses took_maths ∧
  (delete_course maths false took_maths).1 = took_maths ∧
  (delete_course maths false took_maths).2
  = {| success := false;
       message := u "确认要退选 '" ++ maths ++ u "' 吗？";
       similar_courses := [];
       needs_confirmation := true;
       course_to_confirm := Some maths |}.
Proof.
  intros maths.
  assert (maths ∈ selected_courses took_maths) as H1
    by (apply (bool_decide_unpack _); vm_compute; exact I).
  destruct (delete_noforce_confirms maths took_maths) as [Ha Hb].
  split; [exact H1 |]. split; [exact Ha | exact (Hb H1)].
Defined.

Lemma unforced_run_frame_witness :
  let calls := [Select (u "安全") false; Delete (u "高等") false;
                Select (u "体育") false] in
  Forall (λ c, forced c = false) calls ∧ run calls took_maths = took_maths.
Proof.
  intros calls.
  assert (Forall (λ c, forced c = false) calls) as H1 by (repeat constructor).
  split; [exact H1 | exact (unforced_run_frame calls took_maths H1)].
Defined.

Lemma select_success_iff_changed_witness :
  let sport := u "体育" in
  let res := select_course sport true took_maths in
  success res.2 = true ∧
  selected_courses res.1 ≠ selected_courses took_maths ∧
  selected_courses res.1 = {[sport]} ∪ selected_courses took_maths ∧
  size (selected_courses res.1) = S (size (selected_courses took_maths)).
Proof.
  intros sport res.
  assert (success res.2 = true) as H1 by (vm_compute; reflexivity).
  destruct (select_success_iff_changed sport true took_maths) as [Ha Hb].
  destruct (Hb H1) as (_ & _ & _ & Hc & Hd).
  split; [exact H1 |]. split; [exact (proj1 Ha H1) |]. split; [exact Hc | exact Hd].
Defined.

Lemma delete_success_iff_changed_witness :
  let maths := u "高等数学" in
  let res := delete_course maths true took_maths in
  success res.2 = true ∧
  selected_courses res.1 ≠ selected_courses took_maths ∧
  selected_courses res.1 = selected_courses took_maths ∖ {[maths]} ∧
  size (selected_courses took_maths) = S (size (selected_courses res.1)).
Proof.
  intros maths res.
  assert (success res.2 = true) as H1 by (vm_compute; reflexivity).
  destruct (delete_success_iff_changed maths true took_maths) as [Ha Hb].
  destruct (Hb H1) as (_ & _ & Hc & Hd).
  split; [exact H1 |]. split; [exact (proj1 Ha H1) |]. split; [exact Hc | exact Hd].
Defined.

Lemma delete_select_roundtrip_witness :
  let maths := u "高等数学" in
  maths ∈ keys took_maths ∧ maths ∈ selected_courses took_maths ∧
  selected_courses (select_course maths true (delete_course maths true took_maths).1).1
  = selected_courses took_maths.
Proof.
  intros maths.
  assert (maths ∈ keys took_maths) as H1
    by (apply (bool_decide_unpack _); vm_compute; exact I).
  assert (maths ∈ selected_courses took_maths) as H2
    by (apply (bool_decide_unpack _); vm_compute; exact I).
  split; [exact H1 |]. split; [exact H2 | exact (delete_select_roundtrip maths took_maths H1 H2)].
Defined.

Lemma query_rows_selectable_witness :
  let required := Some [u "必修"] in
  let x := {| name := u "高等数学"; row_type := u "必修";
              row_tags := [u "理科"; u "基础课"] |} in
  x ∈ query_courses required None new_CourseSystem ∧
  truthy required = true ∧ row_type x ∈ arg required ∧
  select_course (name x) true new_CourseSystem
  = if bool_decide (name x ∈ selected_courses new_CourseSystem)
    then (new_CourseSystem, already_selected (name x))
    else (with_selected new_CourseSystem
            ({[name x]} ∪ selected_courses new_CourseSystem),
          selected_ok (name x)).
Proof.
  intros required x.
  assert (x ∈ query_courses required None new_CourseSystem) as H1
    by (vm_compute; apply list_elem_of_here).
  assert (truthy required = true) as H2 by reflexivity.
  destruct (query_rows_selectable required None new_CourseSystem x H1) as (_ & Ha & Hb).
  split; [exact H1 |]. split; [exact H2 |]. split; [exact (Ha H2) | exact Hb].
Defined.

Lemma query_interests_as_set_witness :
  let i1 := [u "安全"; u "云计算"] in
  let i2 := [u "云计算"; u "安全"; u "云计算"] in
  (∀ t, t ∈ i1 ↔ t ∈ i2) ∧
  query_courses None (Some i1) new_CourseSystem
  = query_courses None (Some i2) new_CourseSystem.
Proof.
  intros i1 i2.
  assert (∀ t, t ∈ i1 ↔ t ∈ i2) as H1.
  { intros t. unfold i1, i2. rewrite !elem_of_cons. tauto. }
  split; [exact H1 | exact (query_interests_as_set None i1 i2 new_CourseSystem H1)].
Defined.

Lemma query_best_first_witness :
  let electives := Some [u "选修"] in
  let interests := Some [u "安全"; u "云计算"] in
  NoDup (keys new_CourseSystem) ∧ truthy interests = true ∧
  ∃ x rest, query_courses electives interests new_CourseSystem = x :: rest ∧
    ∀ y, y ∈ filtered_rows electives new_CourseSystem →
         (overlap (row_tags y) (arg interests) ≤ overlap (row_tags x) (arg interests))%nat.
Proof.
  intros electives interests.
  assert (NoDup (keys new_CourseSystem)) as H1
    by (apply (bool_decide_unpack _); vm_compute; exact I).
  assert (truthy interests = true) as H2 by reflexivity.
  split; [exact H1 |]. split; [exact H2 |].
  destruct (query_courses electives interests new_CourseSystem) as [|x rest] eqn:Hq.
  - vm_compute in Hq. discriminate Hq.
  - exists x, rest. split; [reflexivity |].
    exact (query_best_first electives interests new_CourseSystem x rest H1 H2 Hq).
Defined.

Lemma show_selected_courses_spec_witness :
  let ghost := u "量子力学" in
  let broken := with_selected new_CourseSystem {[ghost]} in
  selection_in_catalog took_maths ∧
  ((selected_courses took_maths = ∅ ∧
    show_selected_courses took_maths
    = Return (NothingSelected (u "您还没有选择任何课程"))) ∨
   (selected_courses took_maths ≠ ∅ ∧
    ∃ rows, show_selected_courses took_maths = Return (Listing rows) ∧
            map name rows = elements (selected_courses took_maths) ∧
            Forall (λ x, x ∈ row_of <$> courses took_maths) rows)) ∧
  show_selected_courses broken = Raise (KeyError ghost) ∧
  ∃ k, KeyError ghost = KeyError k ∧ k ∈ selected_courses broken ∧ k ∉ keys broken.
Proof.
  intros ghost broken.
  assert (selection_in_catalog took_maths) as H1.
  { intros c Hc%elem_of_elements. vm_compute in Hc.
    apply list_elem_of_singleton in Hc. subst c.
    apply (bool_decide_unpack _). vm_compute. exact I. }
  assert (show_selected_courses broken = Raise (KeyError ghost)) as H2
    by (vm_compute; reflexivity).
  destruct (show_selected_courses_spec took_maths) as [Ha _].
  destruct (show_selected_courses_spec broken) as [_ Hb].
  split; [exact H1 |]. split; [exact (Ha H1) |]. split; [exact H2 | exact (Hb _ H2)].
Defined.

Lemma validate_course_name_spec_witness :
  let sport := u "体育" in
  let ghost := u "量子力学" in
  validate_course_name sport took_maths = Return true ∧
  (sport ≠ [] ∧ sport ∈ keys took_maths) ∧
  find_similar_courses took_maths sport false = [sport] ∧
  validate_course_name ghost took_maths = Return false ∧
  (ghost ≠ [] ∧ ghost ∉ keys took_maths).
Proof.
  intros sport ghost.
  assert (validate_course_name sport took_maths = Return true) as H1
    by (vm_compute; reflexivity).
  assert (validate_course_name ghost took_maths = Return false) as H2
    by (vm_compute; reflexivity).
  destruct (validate_course_name_spec sport took_maths) as (_ & Ha & _ & Hb).
  destruct (validate_course_name_spec ghost took_maths) as (_ & _ & Hc & _).
  split; [exact H1 |]. split; [exact (proj1 Ha H1) |].
  split; [exact (proj1 (Hb H1)) |]. split; [exact H2 | exact (proj1 Hc H2)].
Defined.

Lemma add_message_total_witness :
  let full := {| history := [turn "user" "a"; turn "assistant" "b"; turn "user" "c"];
                 max_history := 3 |} in
  let none := new_ConversationManager 0 in
  ((0 < max_history full)%Z ∧
   ∃ cm', add_message (u "assistant") (u "d") full = Some cm' ∧
          length (history cm') = 3%nat ∧
          last (history cm') = Some (turn "assistant" "d")) ∧
  ((max_history none ≤ 0)%Z ∧ history none = [] ∧
   ∃ cm', add_message (u "user") (u "a") none = Some cm' ∧ history cm' = []).
Proof.
  intros full none.
  assert (0 < max_history full)%Z as H1 by (simpl; lia).
  assert (max_history none ≤ 0)%Z as H2 by (simpl; lia).
  assert (history none = []) as H3 by reflexivity.
  split.
  - destruct (add_message_total (u "assistant") (u "d") full) as (cm' & Ha & _ & Hb & Hc & _).
    split; [exact H1 |]. exists cm'. split; [exact Ha |]. split; [exact Hb | exact (Hc H1)].
  - destruct (add_message_total (u "user") (u "a") none) as (cm' & Ha & _ & _ & _ & Hd).
    split; [exact H2 |]. split; [exact H3 |]. exists cm'.
    split; [exact Ha | exact (Hd H2 H3)].
Defined.

Lemma transcript_window_witness :
  let earlier := [turn "user" "a"; turn "assistant" "b"] in
  let recent := [turn "user" "c"; turn "assistant" "d"; turn "user" "e"] in
  (0 ≤ 3)%Z ∧ length recent = Z.to_nat 3 ∧
  ∃ cm, add_messages (earlier ++ recent) (new_ConversationManager 3) = Some cm ∧
        history cm = recent ∧
        get_recent_history cm = join nl (map transcript_line recent).
Proof.
  intros earlier recent.
  assert (0 ≤ 3)%Z as H1 by lia.
  assert (length recent = Z.to_nat 3) as H2 by reflexivity.
  split; [exact H1 |]. split; [exact H2 | exact (transcript_window 3 earlier recent H1 H2)].
Defined.

End OnTheCatalog.
